(** * stt-training-data: segment logs, audio splitting and manifest assembly

    A shallow embedding of the two batch pipelines of the repository

    - [Stt_Audio/split_audio.py] and [stt_training_data/split_audio.py]
      (the Audio Splitter), and
    - [Stt_Audio/generate_csv_file.py] and
      [stt_training_data/drupchen_training_data_format.py] (the Segment-Log
      Parser and manifest writer),

    followed by the properties of the specification proved about them.

    Conventions.
    - A Python [str] is a [string]; each [ascii] stands for the code point
      of the same number, so the development covers texts over the code
      points 0..255.  On that alphabet the character classes used by the
      source ([\d], [.], the white space removed by [str.strip]) are the
      ones Python uses.
    - A Python [int] is a [Z]; a Python [float] is a binary64 value of
      [SpecFloat.spec_float].
    - An exception is a value of [exn]; fallible code returns an
      [outcome], and code with effects threads its store explicitly, so
      that what was written before an exception stays written.
    - Console output ([print]) has no counterpart; the values formatted for
      it are still computed, because formatting can raise. *)

From Stdlib Require Import ZArith NArith List Ascii String Decimal DecimalString DecimalN.
From Stdlib Require Import SpecFloat Permutation.
From stdpp Require Import base option list gmap strings sorting.

Local Open Scope Z_scope.

(** ** Exceptions *)

Inductive exn : Type :=
| FileNotFoundError
| IndexError
| ValueError
| OverflowError
| OSError
| NotADirectoryError
| PermissionError
| CodecError.

Inductive outcome (A : Type) : Type :=
| Returned (a : A)
| Raised (e : exn).
Arguments Returned {A} a.
Arguments Raised {A} e.

Definition obind {A B : Type} (x : outcome A) (k : A -> outcome B) : outcome B :=
  match x with
  | Returned a => k a
  | Raised e => Raised e
  end.

Notation "'let*' x ':=' e1 'in' e2" := (obind e1 (fun x => e2))
  (at level 10, x name, e1 at level 100, e2 at level 200).

(** ** Characters and the classes of the source's patterns *)

Definition LF : ascii := "010".

Definition CR : ascii := "013".

Definition code (c : ascii) : N := N_of_ascii c.

(** [\d]: a decimal digit. *)
Definition is_digit (c : ascii) : bool :=
  ((48 <=? code c) && (code c <=? 57))%N.

(** [[\d.]]: a decimal digit or a full stop. *)
Definition is_digit_or_dot (c : ascii) : bool :=
  is_digit c || Ascii.eqb c ".".

(** [.] without DOTALL: any character but the line feed. *)
Definition is_not_newline (c : ascii) : bool :=
  negb (Ascii.eqb c LF).

(** Any character but the carriage return. *)
Definition is_not_cr (c : ascii) : bool :=
  negb (Ascii.eqb c CR).

(** The white space of [str.strip()]: what [str.isspace] accepts. *)
Definition is_space (c : ascii) : bool :=
  let n := code c in
  (((9 <=? n) && (n <=? 13)) || ((28 <=? n) && (n <=? 32))
   || (n =? 133) || (n =? 160))%N.

Fixpoint string_forallb (p : ascii -> bool) (s : string) : bool :=
  match s with
  | EmptyString => true
  | String c s' => p c && string_forallb p s'
  end.

Definition nl : string := String LF EmptyString.

(** ** Decimal renderings of integers *)

(** [str(n)] for [n >= 0]. *)
Definition dec (n : N) : string :=
  NilEmpty.string_of_uint (N.to_uint n).

(** [str(z)], as in [f"{start_ms}"]. *)
Definition str_int (z : Z) : string :=
  if z <? 0 then String "-" (dec (Z.abs_N z)) else dec (Z.abs_N z).

Fixpoint zeros (k : nat) : string :=
  match k with
  | O => EmptyString
  | S k' => String "0" (zeros k')
  end.

(** [f"{n:04d}"] for [n >= 0]: padded with zeros on the left to a width of
    at least four. *)
Definition fmt_04d (n : N) : string :=
  let d := dec n in
  zeros (4 - String.length d) +:+ d.

(** [f"{n:03d}"], used for the per-file prefix. *)
Definition fmt_03d (n : N) : string :=
  let d := dec n in
  zeros (3 - String.length d) +:+ d.

(** ** Floats: true division, [.2f] formatting and [float(str)] *)

Definition b64_round (neg : bool) (q e : Z) (l : location) : spec_float :=
  binary_round_aux 53 1024 neg q e l.

(** The binary64 value nearest to [n / d] (ties to even), [n, d > 0]. *)
Definition b64_of_ratio (neg : bool) (n d : positive) : spec_float :=
  let '(q, e, l) := SFdiv_core_binary 53 1024 (Zpos n) 0 (Zpos d) 0 in
  b64_round neg q e l.

(** [x / y] on Python integers with [y > 0]: the correctly rounded
    quotient; a quotient beyond the range of binary64 raises
    [OverflowError]. *)
Definition true_div (x : Z) (y : positive) : outcome spec_float :=
  match x with
  | Z0 => Returned (S754_zero false)
  | Zpos p =>
      match b64_of_ratio false p y with
      | S754_infinity _ => Raised OverflowError
      | f => Returned f
      end
  | Zneg p =>
      match b64_of_ratio true p y with
      | S754_infinity _ => Raised OverflowError
      | f => Returned f
      end
  end.

(** [n / d] rounded to an integer, ties to even ([n >= 0], [d > 0]). *)
Definition round_half_even (n d : Z) : Z :=
  let q := n / d in
  let r := n mod d in
  match 2 * r ?= d with
  | Lt => q
  | Gt => q + 1
  | Eq => if Z.even q then q else q + 1
  end.

(** The magnitude [m * 2^e] in hundredths, rounded to an integer. *)
Definition hundredths (m : positive) (e : Z) : Z :=
  if 0 <=? e then Zpos m * 100 * 2 ^ e
  else round_half_even (Zpos m * 100) (2 ^ (- e)).

Definition digit_char (k : Z) : ascii :=
  ascii_of_N (48 + Z.to_N k).

Definition fixed2 (neg : bool) (h : Z) : string :=
  let body :=
    dec (Z.to_N (h / 100)) +:+
    String "." (String (digit_char ((h / 10) mod 10))
               (String (digit_char (h mod 10)) EmptyString)) in
  if neg then String "-" body else body.

(** [f"{x:.2f}"]. *)
Definition fmt_2f (x : spec_float) : string :=
  match x with
  | S754_zero s => fixed2 s 0
  | S754_finite s m e => fixed2 s (hundredths m e)
  | S754_infinity s => if s then "-inf" else "inf"
  | S754_nan => "nan"
  end.

(** [f"{ms/1000:.2f}"]. *)
Definition fmt_seconds (ms : Z) : outcome string :=
  let* x := true_div ms 1000 in
  Returned (fmt_2f x).

(** [float(s)] for the texts the duration group of [SEGMENT_PATTERN] can
    capture, digits and full stops: at most one full stop and at least one
    digit, else [ValueError].  Other spellings that [float] accepts (a sign,
    an exponent, [inf], [nan], surrounding white space, underscores) cannot
    be captured by that group and are outside the model; they are answered
    with [ValueError] as well. *)
Fixpoint split_dot (s : string) : string * option string :=
  match s with
  | EmptyString => (EmptyString, None)
  | String c s' =>
      if Ascii.eqb c "." then (EmptyString, Some s')
      else let '(a, b) := split_dot s' in (String c a, b)
  end.

Definition digits_value (s : string) : option N :=
  if string_forallb is_digit s
  then option_map N.of_uint (NilEmpty.uint_of_string s)
  else None.

Definition py_float (s : string) : outcome spec_float :=
  let '(ip, rest) := split_dot s in
  let fp := match rest with Some t => t | None => EmptyString end in
  match ip +:+ fp with
  | EmptyString => Raised ValueError
  | ds =>
      match digits_value ds with
      | Some N0 => Returned (S754_zero false)
      | Some (Npos n) =>
          Returned (b64_of_ratio false n
                      (Z.to_pos (10 ^ Z.of_nat (String.length fp))))
      | None => Raised ValueError
      end
  end.

(** ** String operations of the source *)

(** [s.split(sep)] with a one-character separator: never empty. *)
Fixpoint split_on (sep : ascii) (s : string) : list string :=
  match s with
  | EmptyString => [EmptyString]
  | String c s' =>
      if Ascii.eqb c sep then EmptyString :: split_on sep s'
      else match split_on sep s' with
           | t :: ts => String c t :: ts
           | [] => [String c EmptyString]
           end
  end.

Fixpoint lstrip (s : string) : string :=
  match s with
  | EmptyString => EmptyString
  | String c s' => if is_space c then lstrip s' else s
  end.

Fixpoint rstrip (s : string) : string :=
  match s with
  | EmptyString => EmptyString
  | String c s' =>
      match rstrip s' with
      | EmptyString => if is_space c then EmptyString else String c EmptyString
      | r => String c r
      end
  end.

(** [s.strip()]. *)
Definition strip (s : string) : string := lstrip (rstrip s).

(** [s.startswith(p)]. *)
Definition startswith (s p : string) : bool := String.prefix p s.

(** [seq[i]] on a list: [IndexError] out of range ([i >= 0]). *)
Definition index_list {A : Type} (l : list A) (i : nat) : outcome A :=
  match nth_error l i with
  | Some a => Returned a
  | None => Raised IndexError
  end.

(** ** The regular expressions of the source

    The patterns of the source are sequences of literal characters and of
    captured groups [(C+)] over a character class [C].  [match_here] is the
    backtracking matcher of [re] on such sequences: a group first takes as
    many characters as it can and gives them back one at a time while the
    rest of the pattern fails. *)

Inductive item : Type :=
| Lit (c : ascii)
| Group (cls : ascii -> bool).

Definition regex := list item.

Fixpoint lits (s : string) : regex :=
  match s with
  | EmptyString => []
  | String c s' => Lit c :: lits s'
  end.

(** [match_plus k cls s]: consume [C+] greedily from [s], then continue
    with [k]; the result is the captured text with what [k] returned. *)
Fixpoint match_plus {R : Type} (k : string -> option R) (cls : ascii -> bool)
    (s : string) : option (string * R) :=
  match s with
  | EmptyString => None
  | String c s' =>
      if cls c then
        match match_plus k cls s' with
        | Some (cap, r) => Some (String c cap, r)
        | None =>
            match k s' with
            | Some r => Some (String c EmptyString, r)
            | None => None
            end
        end
      else None
  end.

(** [match_here p s]: match [p] at the start of [s]; the captures in order
    and the text left after the match. *)
Fixpoint match_here (p : regex) (s : string) : option (list string * string) :=
  match p with
  | [] => Some ([], s)
  | Lit c :: p' =>
      match s with
      | String c' s' => if Ascii.eqb c' c then match_here p' s' else None
      | EmptyString => None
      end
  | Group cls :: p' =>
      match match_plus (match_here p') cls s with
      | Some (cap, (caps, rest)) => Some (cap :: caps, rest)
      | None => None
      end
  end.

(** [p.findall(s)]: the matches from left to right, each search resuming
    where the previous match ended; [fuel] bounds the number of positions
    tried. *)
Fixpoint findall_fuel (p : regex) (fuel : nat) (s : string) : list (list string) :=
  match fuel with
  | O => []
  | S fuel' =>
      match match_here p s with
      | Some (caps, rest) =>
          caps :: (if (String.length rest <? String.length s)%nat
                   then findall_fuel p fuel' rest
                   else match s with
                        | String _ s' => findall_fuel p fuel' s'
                        | EmptyString => []
                        end)
      | None =>
          match s with
          | String _ s' => findall_fuel p fuel' s'
          | EmptyString => []
          end
      end
  end.

Definition findall (p : regex) (s : string) : list (list string) :=
  findall_fuel p (S (String.length s)) s.

(** [re.sub(C, "", s)] for a one-character class [C]. *)
Fixpoint remove_class (cls : ascii -> bool) (s : string) : string :=
  match s with
  | EmptyString => EmptyString
  | String c s' =>
      if cls c then remove_class cls s' else String c (remove_class cls s')
  end.

(** [s[:k]] for a Python integer [k]: the first [k] characters, or all but
    the last [-k] when [k] is negative. *)
Fixpoint take_chars (n : nat) (s : string) : string :=
  match n, s with
  | S n', String c s' => String c (take_chars n' s')
  | _, _ => EmptyString
  end.

Definition slice_to (s : string) (k : Z) : string :=
  if k <? 0 then take_chars (String.length s - Z.abs_nat k) s
  else take_chars (Z.to_nat k) s.

(** ** Files read by the Parser

    [listing] gives the names [os.listdir] returns for a folder, in the
    order it returns them, and [listdir_error] what it raises for a path it
    cannot list: [FileNotFoundError] for a path that does not exist,
    [NotADirectoryError] for a file, [PermissionError].  [content] gives the
    text stored at a path. *)

Record filesystem : Type := {
  listing : gmap string (list string);
  listdir_error : string -> exn;
  content : gmap string string
}.

(** [os.listdir(folder)]. *)
Definition listdir (fs : filesystem) (folder : string) : outcome (list string) :=
  match listing fs !! folder with
  | Some names => Returned names
  | None => Raised (listdir_error fs folder)
  end.

(** What [read()] gives for the text stored in a file opened in text mode:
    a carriage return, alone or before a line feed, is read as one line
    feed. *)
Fixpoint universal_newlines (s : string) : string :=
  match s with
  | EmptyString => EmptyString
  | String c s' =>
      if Ascii.eqb c CR then
        match s' with
        | String c' _ =>
            if Ascii.eqb c' LF then universal_newlines s'
            else String LF (universal_newlines s')
        | EmptyString => String LF EmptyString
        end
      else String c (universal_newlines s')
  end.

Fixpoint ends_with_slash (s : string) : bool :=
  match s with
  | EmptyString => false
  | String c EmptyString => Ascii.eqb c "/"
  | String _ s' => ends_with_slash s'
  end.

(** [os.path.join(a, b)]. *)
Definition path_join (a b : string) : string :=
  if startswith b "/" then b
  else match a with
       | EmptyString => b
       | _ => if ends_with_slash a then a +:+ b else a +:+ "/" +:+ b
       end.

(** ** The manifest table and its CSV text

    A data frame over the five manifest columns is the list of its rows.
    How the table library encodes the five values of a row as one CSV
    record is left open: [encode] is that encoding. *)

Record manifest_row : Type := {
  file_name : string;
  dept : string;
  audio_url : string;
  audio_duration_in_seconds : spec_float;
  transcript : string
}.

Definition manifest_columns : list string :=
  ["file_name"; "dept"; "audio_url"; "audio_duration_in_seconds"; "transcript"].

Fixpoint csv_lines (encode : manifest_row -> string) (index : bool) (i : N)
    (rows : list manifest_row) : string :=
  match rows with
  | [] => EmptyString
  | r :: rows' =>
      (if index then dec i +:+ "," else EmptyString) +:+ encode r +:+ nl
      +:+ csv_lines encode index (N.succ i) rows'
  end.

(** [df.to_csv(path, index=index)]: the text written. *)
Definition to_csv (encode : manifest_row -> string) (index : bool)
    (df : list manifest_row) : string :=
  (if index then "," else EmptyString) +:+ String.concat "," manifest_columns
  +:+ nl +:+ csv_lines encode index 0 df.

Definition by_file_name (a b : manifest_row) : Prop :=
  String.le (file_name a) (file_name b).

Global Instance by_file_name_dec : RelDecision by_file_name.
Proof. intros a b. unfold by_file_name. apply _. Defined.

(** [df.sort_values(by="file_name")]: ascending by code points; the table
    library's sort is modelled by a merge sort. *)
Definition sort_values (df : list manifest_row) : list manifest_row :=
  merge_sort by_file_name df.

(** ** Stt_Audio/generate_csv_file.py *)

Module generate_csv_file.

Definition CLOUDFRONT_URL : string :=
  "https://d38pmlk0v88drf.cloudfront.net/wav16k/".

Definition SEGMENT_PATTERN : regex :=
  lits "Segment " ++ [Group is_digit] ++
  lits (nl +:+ "Time: ") ++ [Group is_digit_or_dot] ++
  lits "s - " ++ [Group is_digit_or_dot] ++
  lits "s (duration: " ++ [Group is_digit_or_dot] ++
  lits ("s)" +:+ nl +:+ "Filename: ") ++ [Group is_not_newline] ++
  lits (nl +:+ "Transcription: ") ++ [Group is_not_newline].

(** The six-tuple [findall] returns for one match. *)
Record segment : Type := {
  segment_id : string;
  start_time : string;
  end_time : string;
  duration : string;
  filename : string;
  transcription : string
}.

Definition segment_of_captures (caps : list string) : option segment :=
  match caps with
  | [a; b; c; d; e; f] =>
      Some {| segment_id := a; start_time := b; end_time := c;
              duration := d; filename := e; transcription := f |}
  | _ => None
  end.

Definition get_log_file (fs : filesystem) (folder : string) : outcome string :=
  let* names := listdir fs folder in
  match List.filter (fun f => startswith f "segments_log") names with
  | [] => Raised FileNotFoundError
  | f :: _ => Returned (path_join folder f)
  end.

(** [open(log_file_path, "r", encoding="utf-8").read()]: the file is read
    in text mode, with universal newlines. *)
Definition read_log_file (fs : filesystem) (log_file_path : string) : outcome string :=
  match content fs !! log_file_path with
  | Some text => Returned (universal_newlines text)
  | None => Raised OSError
  end.

Definition extract_segments (log_content : string) : list segment :=
  omap segment_of_captures (findall SEGMENT_PATTERN log_content).

Definition construct_audio_url (filename : string) : string :=
  CLOUDFRONT_URL +:+ filename.

(** The body of the loop of [process_segments]. *)
Definition process_segment (seg : segment) : outcome manifest_row :=
  let* dept := index_list (split_on "_" (filename seg)) 1 in
  let audio_url := construct_audio_url (filename seg) in
  let* duration_in_seconds := py_float (duration seg) in
  Returned {| file_name := filename seg;
              dept := dept;
              audio_url := audio_url;
              audio_duration_in_seconds := duration_in_seconds;
              transcript := strip (transcription seg) |}.

Fixpoint process_segments_from (data : list manifest_row) (segments : list segment)
    : outcome (list manifest_row) :=
  match segments with
  | [] => Returned data
  | seg :: segments' =>
      let* row := process_segment seg in
      process_segments_from (data ++ [row]) segments'
  end.

Definition process_segments (segments : list segment) : outcome (list manifest_row) :=
  process_segments_from [] segments.

Section manifest.
Variable encode : manifest_row -> string.

(** The file written: its path and text. *)
Definition save_to_csv (data : list manifest_row) (output_csv : string)
    : gmap string string :=
  {[ output_csv := to_csv encode false data ]}.

(** The body of the [try] of [process_audio_folders]. *)
Definition folder_rows (fs : filesystem) (folder : string) : outcome (list manifest_row) :=
  let* log_file_path := get_log_file fs folder in
  let* log_content := read_log_file fs log_file_path in
  let segments := extract_segments log_content in
  process_segments segments.

(** The loop of [process_audio_folders]: [data] after the folders. *)
Fixpoint collect (fs : filesystem) (data : list manifest_row) (audio_folders : list string)
    : list manifest_row :=
  match audio_folders with
  | [] => data
  | folder :: rest =>
      match folder_rows fs folder with
      | Returned rows => collect fs (data ++ rows) rest
      | Raised _ => collect fs data rest
      end
  end.

Definition process_audio_folders (fs : filesystem) (audio_folders : list string)
    (output_csv : string) : gmap string string :=
  save_to_csv (collect fs [] audio_folders) output_csv.

End manifest.

End generate_csv_file.

(** ** stt_training_data/drupchen_training_data_format.py

    The file repeats [generate_csv_file] word for word, except that
    [save_to_csv] sorts the table by [file_name] before writing it. *)

Module drupchen_training_data_format.

Definition CLOUDFRONT_URL := generate_csv_file.CLOUDFRONT_URL.
Definition SEGMENT_PATTERN := generate_csv_file.SEGMENT_PATTERN.
Definition get_log_file := generate_csv_file.get_log_file.
Definition read_log_file := generate_csv_file.read_log_file.
Definition extract_segments := generate_csv_file.extract_segments.
Definition construct_audio_url := generate_csv_file.construct_audio_url.
Definition process_segments := generate_csv_file.process_segments.
Definition folder_rows := generate_csv_file.folder_rows.
Definition collect := generate_csv_file.collect.

Section manifest.
Variable encode : manifest_row -> string.

Definition save_to_csv (data : list manifest_row) (output_csv : string)
    : gmap string string :=
  {[ output_csv := to_csv encode false (sort_values data) ]}.

Definition process_audio_folders (fs : filesystem) (audio_folders : list string)
    (output_csv : string) : gmap string string :=
  save_to_csv (collect fs [] audio_folders) output_csv.

End manifest.

End drupchen_training_data_format.

(** ** The Audio Splitter: data and store

    A cell of the timing table is seen through [int(...)]: it has an
    integer value or the cast raises (a missing value, a text that is not a
    number).  The transcription is the text the f-strings render. *)

Inductive cell : Type :=
| CInt (z : Z)
| CBad.

Definition py_int (c : cell) : outcome Z :=
  match c with
  | CInt z => Returned z
  | CBad => Raised ValueError
  end.

Record timing_row : Type := {
  start_time : cell;
  end_time : cell;
  duration : cell;
  transcription : string
}.

(** The output directory: the exported files by name, and the text of
    [segments_log.txt]. *)
Record out_dir : Type := {
  files : gmap string string;
  log : string
}.

(** Code that changes the output directory and may raise: the store after
    an exception is the store at the point of the [raise]. *)
Definition action (A : Type) : Type := out_dir -> outcome A * out_dir.

Definition ret {A : Type} (a : A) : action A := fun st => (Returned a, st).

Definition lift {A : Type} (o : outcome A) : action A := fun st => (o, st).

Definition bind {A B : Type} (m : action A) (k : A -> action B) : action B :=
  fun st =>
    match m st with
    | (Returned a, st') => k a st'
    | (Raised e, st') => (Raised e, st')
    end.

Notation "'let!' x ':=' m 'in' k" := (bind m (fun x => k))
  (at level 10, x name, m at level 100, k at level 200).

(** [try: m except Exception: continue]. *)
Definition try_continue (m : action unit) : action unit :=
  fun st =>
    match m st with
    | (Returned _, st') => (Returned tt, st')
    | (Raised _, st') => (Returned tt, st')
    end.

(** What [with open(log_file, "w") as f: f.write(...)] does with the file
    system it meets: it writes the text; or [open] raises and the log is as
    it was; or a write or the closing raises after [open] has emptied the
    file, and [kept] is what the file holds then. *)
Inductive log_write : Type :=
| Written
| Refused (e : exn)
| Broken (e : exn) (kept : string).

Definition write_log (how : log_write) (text : string) : action unit :=
  fun st =>
    match how with
    | Written => (Returned tt, {| files := files st; log := text |})
    | Refused e => (Raised e, st)
    | Broken e kept => (Raised e, {| files := files st; log := kept |})
    end.

Definition dashes : string :=
  Eval cbv in
    (fix rep (k : nat) : string :=
       match k with
       | O => EmptyString
       | S k' => String "-" (rep k')
       end) 80%nat.

Definition log_header : string :=
  "Segment Log" +:+ nl +:+ "===========" +:+ nl +:+ nl.

(** [Path(p).name] for a relative path that names a file. *)
Definition path_name (p : string) : string :=
  List.last (split_on "/" p) EmptyString.

Definition format_time (start_ms end_ms : Z) : string :=
  str_int start_ms +:+ "_to_" +:+ str_int end_ms.

(** The text [f"{start/1000:.2f}s - {end/1000:.2f}s (duration: {d/1000:.2f}s)"]
    of the progress line and of the log. *)
Definition time_text (start_ms end_ms duration_ms : Z) : outcome string :=
  let* a := fmt_seconds start_ms in
  let* b := fmt_seconds end_ms in
  let* d := fmt_seconds duration_ms in
  Returned (a +:+ "s - " +:+ b +:+ "s (duration: " +:+ d +:+ "s)").

(** The five [f.write] calls for one segment. *)
Definition log_writes (index : nat) (times name transcription : string) : list string :=
  [ "Segment " +:+ fmt_04d (N.of_nat index + 1) +:+ nl;
    "Time: " +:+ times +:+ nl;
    "Filename: " +:+ name +:+ nl;
    "Transcription: " +:+ transcription +:+ nl;
    dashes +:+ nl +:+ nl ].

Fixpoint concat_strings (l : list string) : string :=
  match l with
  | [] => EmptyString
  | x :: l' => x +:+ concat_strings l'
  end.

Section Splitter.

(** The audio library: a decoded waveform, slicing and the encoder, and
    the faults of the file system while the log is appended to.
    [log_fault i = Some k]: appending the block of row [i] raised after
    [k] of its writes ([k = 0]: the file could not be opened). *)
Variable audio : Type.
Variable slice : audio -> Z -> Z -> outcome audio.
Variable export : audio -> string -> outcome string.
Variable log_fault : nat -> option nat.

(** [segment.export(str(output_filename), format="mp3")]. *)
Definition export_to (segment : audio) (output_filename : string) : action unit :=
  fun st =>
    match export segment output_filename with
    | Returned bytes =>
        (Returned tt,
         {| files := <[output_filename := bytes]> (files st); log := log st |})
    | Raised e => (Raised e, st)
    end.

(** [with open(log_file, "a") as f: f.write(w1); ...]. *)
Definition append_log (index : nat) (writes : list string) : action unit :=
  fun st =>
    match log_fault index with
    | None =>
        (Returned tt,
         {| files := files st; log := log st +:+ concat_strings writes |})
    | Some k =>
        (Raised OSError,
         {| files := files st; log := log st +:+ concat_strings (firstn k writes) |})
    end.

(** The body of the [try] for the row at [index].  The text of the time
    line is formatted for the progress line first, which is where it can
    raise; the log line repeats the same text. *)
Definition row_body (prefix : string) (a : audio) (index : nat) (row : timing_row)
    : action unit :=
  let! start := lift (py_int (start_time row)) in
  let! stop := lift (py_int (end_time row)) in
  let! dur := lift (py_int (duration row)) in
  let! times := lift (time_text start stop dur) in
  let! segment := lift (slice a start stop) in
  let segment_number := fmt_04d (N.of_nat index + 1) in
  let time_range := format_time start stop in
  let output_filename :=
    prefix +:+ "_" +:+ segment_number +:+ "_" +:+ time_range +:+ ".wav" in
  let! exported := export_to segment output_filename in
  append_log index
    (log_writes index times (path_name output_filename) (transcription row)).

(** [for index, row in df.iterrows(): try: ... except Exception: continue]. *)
Fixpoint process_rows (prefix : string) (a : audio) (index : nat)
    (rows : list timing_row) : action unit :=
  match rows with
  | [] => ret tt
  | row :: rows' =>
      let! skipped := try_continue (row_body prefix a index row) in
      process_rows prefix a (S index) rows'
  end.

(** What a run is given: what [output_dir.mkdir(parents=True,
    exist_ok=True)] does, whether the two paths exist, the table
    [pd.read_csv] returns, the waveform [AudioSegment.from_mp3] returns and
    what writing the header of the log meets.  The store of a run is what
    the output directory holds; [mkdir] leaves that as it is.  The lines
    the run prints are left out: printing is taken to succeed. *)
Record split_input : Type := {
  mkdir : outcome unit;
  audio_exists : bool;
  csv_exists : bool;
  read_csv : outcome (list timing_row);
  from_mp3 : outcome audio;
  header_write : log_write
}.

Definition split_with_prefix (prefix : string) (inp : split_input) : action unit :=
  let! made := lift (mkdir inp) in
  if negb (audio_exists inp) then lift (Raised FileNotFoundError)
  else if negb (csv_exists inp) then lift (Raised FileNotFoundError)
  else
    let! df := lift (read_csv inp) in
    let! a := lift (from_mp3 inp) in
    let! header := write_log (header_write inp) log_header in
    process_rows prefix a 0 df.

(** *** The run seen row by row

    [row_output] is the part of [row_body] before the log is appended to:
    the name of the file, the bytes exported to it and the text of the time
    line.  A row is valid when nothing raises while it is processed. *)

Definition row_output (prefix : string) (a : audio) (index : nat) (row : timing_row)
    : outcome (string * string * string) :=
  let* start := py_int (start_time row) in
  let* stop := py_int (end_time row) in
  let* dur := py_int (duration row) in
  let* times := time_text start stop dur in
  let* segment := slice a start stop in
  let output_filename :=
    prefix +:+ "_" +:+ fmt_04d (N.of_nat index + 1) +:+ "_" +:+
    format_time start stop +:+ ".wav" in
  let* bytes := export segment output_filename in
  Returned (output_filename, bytes, times).

Definition row_valid (prefix : string) (a : audio) (index : nat) (row : timing_row) : bool :=
  match row_output prefix a index row, log_fault index with
  | Returned _, None => true
  | _, _ => false
  end.

Fixpoint rows_valid (prefix : string) (a : audio) (index : nat) (rows : list timing_row) : bool :=
  match rows with
  | [] => true
  | row :: rows' => row_valid prefix a index row && rows_valid prefix a (S index) rows'
  end.

(** The text the row at [index] adds to the log. *)
Definition log_part (prefix : string) (a : audio) (index : nat) (row : timing_row) : string :=
  match row_output prefix a index row with
  | Returned (name, _, times) =>
      let writes := log_writes index times (path_name name) (transcription row) in
      match log_fault index with
      | None => concat_strings writes
      | Some k => concat_strings (firstn k writes)
      end
  | Raised _ => EmptyString
  end.

Fixpoint log_parts (prefix : string) (a : audio) (index : nat) (rows : list timing_row)
    : string :=
  match rows with
  | [] => EmptyString
  | row :: rows' => log_part prefix a index row +:+ log_parts prefix a (S index) rows'
  end.

(** The files after the rows from [index] on. *)
Fixpoint files_after (prefix : string) (a : audio) (index : nat) (rows : list timing_row)
    (m : gmap string string) : gmap string string :=
  match rows with
  | [] => m
  | row :: rows' =>
      files_after prefix a (S index) rows'
        match row_output prefix a index row with
        | Returned (name, bytes, _) => <[name := bytes]> m
        | Raised _ => m
        end
  end.

End Splitter.

Definition is_forbidden (c : ascii) : bool :=
  existsb (Ascii.eqb c)
    ["\"; "/"; "*"; "?"; ":"; ascii_of_nat 34; "<"; ">"; "|"]%char.

(** ** Stt_Audio/split_audio.py *)

Module Stt_Audio_split_audio.

Definition clean_filename (text : string) (max_length : Z) : string :=
  let clean_text := remove_class is_forbidden text in
  slice_to clean_text max_length.

Definition clean_filename_default (text : string) : string :=
  clean_filename text 50.

Definition format_time := format_time.

Definition split_audio_file {audio : Type} slice export log_fault
    (inp : split_input audio) : action unit :=
  split_with_prefix audio slice export log_fault "STT_TT_D002" inp.

End Stt_Audio_split_audio.

(** ** stt_training_data/split_audio.py *)

Module stt_training_data_split_audio.

Definition clean_filename (text : string) (max_length : Z) : string :=
  let clean_text := remove_class is_forbidden text in
  slice_to clean_text max_length.

Definition clean_filename_default (text : string) : string :=
  clean_filename text 50.

Definition format_time := format_time.

(** The prefix [split_audio_files_in_folder] passes for the file at
    position [idx]. *)
Definition folder_prefix (idx : nat) : string :=
  "STT_TT_D" +:+ fmt_03d (N.of_nat idx + 1).

Definition split_audio_file {audio : Type} slice export log_fault
    (inp : split_input audio) (prefix : string) : action unit :=
  split_with_prefix audio slice export log_fault prefix inp.

End stt_training_data_split_audio.

(** ** stt_training_data/split_audio.py: the batch over a folder

    [split_audio_files_in_folder] goes through the recordings that
    [input_dir.glob("*.mp3")] returns, in that order.  A recording is given
    by the stem of its file name and by what a run of [split_audio_file]
    finds for it; the output directory holds one directory per stem.  A
    directory that does not exist yet is created by the [mkdir] of the run,
    empty; when that [mkdir] raises, no directory is made. *)

Definition new_dir : out_dir := {| files := ∅; log := EmptyString |}.

Section Batch.

Variable audio : Type.
Variable slice : audio -> Z -> Z -> outcome audio.
Variable export : audio -> string -> outcome string.
Variable log_fault : nat -> option nat.

Record recording : Type := {
  stem : string;
  found : split_input audio
}.

(** The body of the loop for the recording at position [idx]: the output
    directories after it.  Without a CSV file the recording is skipped;
    otherwise [split_audio_file] runs in the directory of the stem and what
    it raises is printed and dropped. *)
Definition split_one (idx : nat) (audio_file : recording)
    (dirs : gmap string out_dir) : gmap string out_dir :=
  let prefix := stt_training_data_split_audio.folder_prefix idx in
  if negb (csv_exists audio (found audio_file)) then dirs
  else
    let st := match dirs !! stem audio_file with
              | Some d => d
              | None => new_dir
              end in
    let result :=
      stt_training_data_split_audio.split_audio_file slice export log_fault
        (found audio_file) prefix st in
    match mkdir audio (found audio_file) with
    | Returned _ => <[stem audio_file := snd result]> dirs
    | Raised _ => dirs
    end.

Fixpoint split_files_from (idx : nat) (audio_files : list recording)
    (dirs : gmap string out_dir) : gmap string out_dir :=
  match audio_files with
  | [] => dirs
  | audio_file :: rest =>
      split_files_from (S idx) rest (split_one idx audio_file dirs)
  end.

Definition split_audio_files_in_folder (audio_files : list recording)
    (dirs : gmap string out_dir) : gmap string out_dir :=
  split_files_from 0 audio_files dirs.

End Batch.

(** ** stt_training_data/download_audio_and_csv_from_drive.py

    A file of the drive folder is its title and what [GetContentFile] does
    with the path it is given: it writes the bytes it fetched there, or it
    raises, having written there what it had by then, if anything.  The
    local files are kept by path. *)

(** [s.endswith(suffix)]. *)
Definition endswith (s suffix : string) : bool :=
  (String.length suffix <=? String.length s)%nat &&
  String.eqb
    (String.substring (String.length s - String.length suffix)
       (String.length suffix) s)
    suffix.

Inductive fetch : Type :=
| Fetched (bytes : string)
| Failed (e : exn) (partial : option string).

Record drive_file : Type := {
  title : string;
  GetContentFile : fetch
}.

Definition is_audio_or_csv (file_name : string) : bool :=
  endswith file_name ".mp3" || endswith file_name ".csv".

(** What a failed download leaves at [path]. *)
Definition leave (path : string) (partial : option string)
    (local : gmap string string) : gmap string string :=
  match partial with
  | Some bytes => <[path := bytes]> local
  | None => local
  end.

(** The loop over [file_list]: nothing catches what a download raises. *)
Fixpoint download_each (output_dir : string) (file_list : list drive_file)
    (local : gmap string string) : outcome unit * gmap string string :=
  match file_list with
  | [] => (Returned tt, local)
  | file :: rest =>
      let file_name := title file in
      if is_audio_or_csv file_name then
        match GetContentFile file with
        | Fetched bytes =>
            download_each output_dir rest
              (<[path_join output_dir file_name := bytes]> local)
        | Failed e partial =>
            (Raised e, leave (path_join output_dir file_name) partial local)
        end
      else download_each output_dir rest local
  end.

(** [list_file] is what [drive.ListFile(...).GetList()] returns, and
    [makedirs] what [if not os.path.exists(output_dir):
    os.makedirs(output_dir)] does: it returns, with the directory there, or
    raises.  The line printed for each download is left out. *)
Definition download_files_from_folder (list_file : outcome (list drive_file))
    (makedirs : outcome unit) (output_dir : string) (local : gmap string string)
    : outcome unit * gmap string string :=
  match list_file with
  | Returned file_list =>
      match makedirs with
      | Returned _ => download_each output_dir file_list local
      | Raised e => (Raised e, local)
      end
  | Raised e => (Raised e, local)
  end.

(** A file of the listing that the loop downloads without raising, or
    passes over. *)
Definition goes_through (file : drive_file) : bool :=
  negb (is_audio_or_csv (title file)) ||
  match GetContentFile file with Fetched _ => true | Failed _ _ => false end.

(** The paths the loop may write to. *)
Definition download_target (output_dir : string) (file_list : list drive_file)
    (path : string) : Prop :=
  exists file, In file file_list /\ is_audio_or_csv (title file) = true /\
               path = path_join output_dir (title file).

(** The name of the file for the row at [index]. *)
Definition segment_name (prefix : string) (index : nat) (start_ms end_ms : Z) : string :=
  prefix +:+ "_" +:+ fmt_04d (N.of_nat index + 1) +:+ "_" +:+
  format_time start_ms end_ms +:+ ".wav".

(** A block of the log as the specification describes it: the four lines
    and the separator. *)
Definition log_block (index : nat) (times name transcription : string) : string :=
  "Segment " +:+ fmt_04d (N.of_nat index + 1) +:+ nl +:+
  "Time: " +:+ times +:+ nl +:+
  "Filename: " +:+ name +:+ nl +:+
  "Transcription: " +:+ transcription +:+ nl +:+
  dashes +:+ nl +:+ nl.

(** [key] is the name of a file of some row at [index] or later. *)
Definition named_from (prefix : string) (index : nat) (key : string) : Prop :=
  exists j start stop, (index <= j)%nat /\ key = segment_name prefix j start stop.

(** ** Notions used to state the properties *)

(** A zero, a finite number or an infinity of positive sign. *)
Definition positive_sign (x : spec_float) : Prop :=
  match x with
  | S754_zero s => s = false
  | S754_finite s _ _ => s = false
  | S754_infinity s => s = false
  | S754_nan => False
  end.



(** The text before the first line feed. *)
Fixpoint first_line (s : string) : string :=
  match s with
  | EmptyString => EmptyString
  | String c s' => if Ascii.eqb c LF then EmptyString else String c (first_line s')
  end.

Definition manifest_header : string :=
  "file_name,dept,audio_url,audio_duration_in_seconds,transcript".

(** What a folder adds to [data] in [process_audio_folders]. *)
Definition contribution (fs : filesystem) (folder : string) : list manifest_row :=
  match generate_csv_file.folder_rows fs folder with
  | Returned rows => rows
  | Raised _ => []
  end.

(** Two matched tuples with the same duration, file name and
    transcription. *)
Definition same_used_fields (s1 s2 : generate_csv_file.segment) : Prop :=
  generate_csv_file.duration s1 = generate_csv_file.duration s2 /\
  generate_csv_file.filename s1 = generate_csv_file.filename s2 /\
  generate_csv_file.transcription s1 = generate_csv_file.transcription s2.

(** The log block of the specification's example, with its separator. *)
Definition example_block : string :=
  "Segment 0001" +:+ nl +:+
  "Time: 0.00s - 3.00s (duration: 3.00s)" +:+ nl +:+
  "Filename: STT_TT_D001_0001_0_to_3000.wav" +:+ nl +:+
  "Transcription: hello" +:+ nl +:+
  dashes +:+ nl +:+ nl.

(** The binary64 number 3.0, that is 3 * 2^51 * 2^-51. *)
Definition float_3_0 : spec_float := S754_finite false 6755399441055744 (-51).

(** The sanitizer's bound as the specification words it, for every
    [max_length]. *)
Definition sanitizer_bound_for_every_max_length : Prop :=
  forall (text : string) (max_length : Z),
    string_forallb (fun c => negb (is_forbidden c))
      (Stt_Audio_split_audio.clean_filename text max_length) = true /\
    Z.of_nat (String.length (Stt_Audio_split_audio.clean_filename text max_length))
      <= max_length.


(** A row the log can carry on lines of its own: times that are not
    negative, and a transcription that is not empty and has no line feed. *)
Definition printable_row (row : timing_row) : bool :=
  match start_time row, end_time row, duration row with
  | CInt s, CInt e, CInt d => (0 <=? s) && (0 <=? e) && (0 <=? d)
  | _, _, _ => false
  end
  && negb (String.eqb (transcription row) EmptyString)
  && string_forallb is_not_newline (transcription row)
  && string_forallb is_not_cr (transcription row).

(** A character that is no slash, line feed or carriage return. *)
Definition is_plain (c : ascii) : bool :=
  negb (Ascii.eqb c "/") && is_not_newline c && is_not_cr c.

(** The records the Parser extracts from [log_text] are those of [rows]:
    as many, each with the file name the splitter logged for the row and,
    after trimming, with its transcription. *)
Definition recovers (prefix : string) (rows : list timing_row) (log_text : string) : Prop :=
  let segs := generate_csv_file.extract_segments log_text in
  length segs = length rows /\
  forall (i : nat) (row : timing_row),
    rows !! i = Some row ->
    exists seg start stop,
      segs !! i = Some seg /\
      start_time row = CInt start /\ end_time row = CInt stop /\
      generate_csv_file.filename seg = path_name (segment_name prefix i start stop) /\
      strip (generate_csv_file.transcription seg) = strip (transcription row).

(** The round trip as the specification words it: for the log of every
    run over valid rows. *)
Definition roundtrip_for_all_valid_rows : Prop :=
  forall (audio : Type) (slice : audio -> Z -> Z -> outcome audio)
         (export : audio -> string -> outcome string) (log_fault : nat -> option nat)
         (inp : split_input audio) (rows : list timing_row) (a : audio) (st : out_dir),
    mkdir audio inp = Returned tt ->
    audio_exists audio inp = true -> csv_exists audio inp = true ->
    read_csv audio inp = Returned rows -> from_mp3 audio inp = Returned a ->
    header_write audio inp = Written ->
    rows_valid audio slice export log_fault "STT_TT_D002" a 0 rows = true ->
    recovers "STT_TT_D002" rows
      (log (snd (Stt_Audio_split_audio.split_audio_file slice export log_fault inp st))).

(** The text of the header after its first character, and the text
    between the transcription of a block and the next block. *)
Definition header_tail : string :=
  "egment Log" +:+ nl +:+ "===========" +:+ nl +:+ nl.

Definition block_end : string := nl +:+ dashes +:+ nl +:+ nl.

Definition not_S (c : ascii) : bool := negb (Ascii.eqb c "S").

(** The six captures of a match are texts of the classes of their groups,
    none of them empty. *)
Definition well_formed_segment (seg : generate_csv_file.segment) : Prop :=
  generate_csv_file.segment_id seg <> EmptyString /\
  string_forallb is_digit (generate_csv_file.segment_id seg) = true /\
  generate_csv_file.start_time seg <> EmptyString /\
  string_forallb is_digit_or_dot (generate_csv_file.start_time seg) = true /\
  generate_csv_file.end_time seg <> EmptyString /\
  string_forallb is_digit_or_dot (generate_csv_file.end_time seg) = true /\
  generate_csv_file.duration seg <> EmptyString /\
  string_forallb is_digit_or_dot (generate_csv_file.duration seg) = true /\
  generate_csv_file.filename seg <> EmptyString /\
  string_forallb is_not_newline (generate_csv_file.filename seg) = true /\
  generate_csv_file.transcription seg <> EmptyString /\
  string_forallb is_not_newline (generate_csv_file.transcription seg) = true.

(** The text of a block the pattern matches, from its captures. *)
Definition matched_text (seg : generate_csv_file.segment) : string :=
  "Segment " +:+ generate_csv_file.segment_id seg +:+ (nl +:+ "Time: ") +:+
  generate_csv_file.start_time seg +:+ "s - " +:+
  generate_csv_file.end_time seg +:+ "s (duration: " +:+
  generate_csv_file.duration seg +:+ ("s)" +:+ nl +:+ "Filename: ") +:+
  generate_csv_file.filename seg +:+ (nl +:+ "Transcription: ") +:+
  generate_csv_file.transcription seg.

(** [sub] occurs in [s]. *)
Definition occurs_in (sub s : string) : Prop :=
  exists before after, s = before +:+ sub +:+ after.

Fixpoint count_char (c : ascii) (s : string) : nat :=
  match s with
  | EmptyString => O
  | String c' s' => (if Ascii.eqb c' c then 1 else 0) + count_char c s'
  end.

(** A sign or a digit. *)
Definition is_sign_or_digit (c : ascii) : bool := is_digit c || Ascii.eqb c "-".

Section SplitterViews.

Variable audio : Type.
Variable slice : audio -> Z -> Z -> outcome audio.
Variable export : audio -> string -> outcome string.

(** The bytes the rows from [index] on export to [key], if any: those of
    the last row that exports to it. *)
Fixpoint exported_to (prefix : string) (a : audio) (index : nat)
    (rows : list timing_row) (key : string) : option string :=
  match rows with
  | [] => None
  | row :: rows' =>
      match exported_to prefix a (S index) rows' key with
      | Some bytes => Some bytes
      | None =>
          match row_output audio slice export prefix a index row with
          | Returned (name, bytes, _) =>
              if String.eqb name key then Some bytes else None
          | Raised _ => None
          end
      end
  end.

End SplitterViews.

(** ** Sample data for the examples *)

(** An encoding of a row as a CSV record, for the examples: the five values
    joined by commas. *)
Definition sample_encode (r : manifest_row) : string :=
  String.concat ","
    [file_name r; dept r; audio_url r; fmt_2f (audio_duration_in_seconds r);
     transcript r].

Definition sample_log_a : string := log_header +:+ example_block.

Definition sample_log_c : string :=
  log_header +:+
  "Segment 0001" +:+ nl +:+
  "Time: 0.00s - 1.50s (duration: 1.50s)" +:+ nl +:+
  "Filename: STT_TT_D000_0001_0_to_1500.wav" +:+ nl +:+
  "Transcription: world" +:+ nl +:+
  dashes +:+ nl +:+ nl.

(** Three folders: [data/a] and [data/c] hold a segment log, [data/b]
    does not. *)
Definition sample_fs : filesystem :=
  {| listing :=
       {[ "data/a" := ["notes.txt"; "segments_log.txt"];
          "data/b" := ["notes.txt"];
          "data/c" := ["segments_log.txt"] ]};
     listdir_error :=
       (fun path => if String.eqb path "data/a/notes.txt" then NotADirectoryError
                    else FileNotFoundError);
     content :=
       {[ "data/a/segments_log.txt" := sample_log_a;
          "data/c/segments_log.txt" := sample_log_c ]} |}.

(** A waveform as a text with one character per millisecond, an encoder
    that writes the slice as it is, and a file system without faults. *)
Definition sample_slice (a : string) (start_ms end_ms : Z) : outcome string :=
  Returned (String.substring (Z.to_nat start_ms) (Z.to_nat (end_ms - start_ms)) a).

Definition sample_export (segment : string) (path : string) : outcome string :=
  Returned segment.

Definition sample_log_fault (index : nat) : option nat := None.

Definition sample_row_hello : timing_row :=
  {| start_time := CInt 0; end_time := CInt 3; duration := CInt 3;
     transcription := "hello" |}.

Definition sample_row_lost : timing_row :=
  {| start_time := CInt 3; end_time := CBad; duration := CInt 2;
     transcription := "lost" |}.

Definition sample_row_world : timing_row :=
  {| start_time := CInt 5; end_time := CInt 9; duration := CInt 4;
     transcription := "world" |}.

Definition sample_valid_rows : list timing_row :=
  [sample_row_hello; sample_row_world].

Definition sample_wave : string := "abcdefghijkl".

Definition sample_input (rows : list timing_row) : split_input string :=
  {| mkdir := Returned tt; audio_exists := true; csv_exists := true;
     read_csv := Returned rows; from_mp3 := Returned sample_wave;
     header_write := Written |}.

Definition empty_dir : out_dir := {| files := ∅; log := EmptyString |}.

Definition sample_row_two_lines : timing_row :=
  {| start_time := CInt 0; end_time := CInt 3; duration := CInt 3;
     transcription := "a" +:+ nl +:+ "b" |}.

Definition sample_row_negative_duration : timing_row :=
  {| start_time := CInt 0; end_time := CInt 3; duration := CInt (-3);
     transcription := "hello" |}.

Definition sample_row_no_text : timing_row :=
  {| start_time := CInt 0; end_time := CInt 3; duration := CInt 3;
     transcription := EmptyString |}.

(** A directory left by an earlier run, with a file of another kind. *)
Definition used_dir : out_dir :=
  {| files := {[ "notes.txt" := "n" ]}; log := "old log" |}.

Definition missing_csv_input : split_input string :=
  {| mkdir := Returned tt; audio_exists := true; csv_exists := false;
     read_csv := Raised FileNotFoundError; from_mp3 := Returned sample_wave;
     header_write := Written |}.

(** A listing of a drive folder: the third download fails half way. *)
Definition sample_listing : list drive_file :=
  [ {| title := "a.mp3"; GetContentFile := Fetched "A" |};
    {| title := "notes.txt"; GetContentFile := Fetched "N" |};
    {| title := "a.csv"; GetContentFile := Failed OSError (Some "par") |};
    {| title := "b.mp3"; GetContentFile := Fetched "B" |} ].

(** Two recordings of a folder: the first has no CSV file. *)
Definition sample_recordings : list (recording string) :=
  [ {| stem := "a"; found := missing_csv_input |};
    {| stem := "b"; found := sample_input sample_valid_rows |} ].

(** The row of the manifest for the timing row at [index] of the recording
    at position [idx]. *)
Definition manifest_row_of (idx index : nat) (row : timing_row) (m : manifest_row)
    : Prop :=
  exists start stop dur seconds,
    start_time row = CInt start /\ end_time row = CInt stop /\
    duration row = CInt dur /\
    file_name m = segment_name (stt_training_data_split_audio.folder_prefix idx) index start stop /\
    dept m = "TT" /\
    audio_url m = generate_csv_file.CLOUDFRONT_URL +:+ file_name m /\
    fmt_seconds dur = Returned seconds /\
    py_float seconds = Returned (audio_duration_in_seconds m) /\
    transcript m = strip (transcription row).

(** A file system with one folder, which holds a segment log with the
    given text. *)
Definition folder_holding (folder text : string) : filesystem :=
  {| listing := {[ folder := ["segments_log.txt"] ]};
     listdir_error := (fun _ => FileNotFoundError);
     content := {[ path_join folder "segments_log.txt" := text ]} |}.

(** A folder that holds the log of a run over the sample rows. *)
Definition sample_log_folder : filesystem :=
  folder_holding "out/b"
    (log (snd (stt_training_data_split_audio.split_audio_file sample_slice
                 sample_export sample_log_fault
                 (sample_input sample_valid_rows) "STT_TT_D002" new_dir))).

(** A transcription with a carriage return, as a quoted field of the
    timing table can hold. *)
Definition sample_row_carriage_return : timing_row :=
  {| start_time := CInt 0; end_time := CInt 3; duration := CInt 3;
     transcription := String "a" (String CR "b") |}.

(** * Properties *)

(** ** Strings *)

Local Arguments String.append !_ _ / : simpl nomatch.

Lemma append_nil_r (s : string) : s +:+ "" = s.
Proof. induction s as [|c s IH]; simpl; [done | by f_equal]. Qed.

Lemma append_assoc (a b c : string) : (a +:+ b) +:+ c = a +:+ (b +:+ c).
Proof. induction a as [|x a IH]; simpl; [done | by f_equal]. Qed.

Lemma length_append (a b : string) :
  String.length (a +:+ b) = (String.length a + String.length b)%nat.
Proof. induction a as [|x a IH]; simpl; [done | by rewrite IH]. Qed.

Lemma string_forallb_append (p : ascii -> bool) (a b : string) :
  string_forallb p (a +:+ b) = string_forallb p a && string_forallb p b.
Proof.
  induction a as [|x a IH]; simpl; [done |].
  rewrite IH. by destruct (p x).
Qed.

Lemma first_line_append (a b : string) :
  string_forallb is_not_newline a = true ->
  first_line (a +:+ String LF b) = a.
Proof.
  induction a as [|x a IH]; simpl; intros H.
  - done.
  - apply andb_prop in H as [Hx Ha]. unfold is_not_newline in Hx.
    destruct (Ascii.eqb x LF); [done |]. by rewrite IH.
Qed.

(** ** The renderings on examples *)

Example fmt_04d_7 : fmt_04d 7 = "0007".
Proof. reflexivity. Qed.

Example fmt_04d_12345 : fmt_04d 12345 = "12345".
Proof. reflexivity. Qed.

Example str_int_negative : str_int (-250) = "-250".
Proof. reflexivity. Qed.

Example fmt_seconds_3000 : fmt_seconds 3000 = Returned "3.00".
Proof. vm_compute. reflexivity. Qed.

(** 2675/1000 is the float just below 2.675, and 125/1000 is 0.125
    exactly, a tie that goes to the even digit. *)
Example fmt_seconds_2675 : fmt_seconds 2675 = Returned "2.67".
Proof. vm_compute. reflexivity. Qed.

Example fmt_seconds_125 : fmt_seconds 125 = Returned "0.12".
Proof. vm_compute. reflexivity. Qed.

Example fmt_seconds_375 : fmt_seconds 375 = Returned "0.38".
Proof. vm_compute. reflexivity. Qed.

Example fmt_seconds_123456789 : fmt_seconds 123456789 = Returned "123456.79".
Proof. vm_compute. reflexivity. Qed.

Example fmt_seconds_negative : fmt_seconds (-500) = Returned "-0.50".
Proof. vm_compute. reflexivity. Qed.

Example fmt_seconds_overflow : fmt_seconds (10 ^ 400) = Raised OverflowError.
Proof. vm_compute. reflexivity. Qed.

Example py_float_3 : py_float "3.00" = Returned float_3_0.
Proof. vm_compute. reflexivity. Qed.

Example py_float_tenth :
  py_float "0.1" = Returned (S754_finite false 7205759403792794 (-56)).
Proof. vm_compute. reflexivity. Qed.

Example py_float_two_dots : py_float "1.2.3" = Raised ValueError.
Proof. vm_compute. reflexivity. Qed.

Example py_float_dot : py_float "." = Raised ValueError.
Proof. vm_compute. reflexivity. Qed.

Example split_on_example :
  split_on "_" "STT_TT_D001_0001_0_to_3000.wav" =
    ["STT"; "TT"; "D001"; "0001"; "0"; "to"; "3000.wav"].
Proof. reflexivity. Qed.

Example split_on_empty : split_on "_" "" = [""].
Proof. reflexivity. Qed.

Example strip_example : strip "  hello world " = "hello world".
Proof. reflexivity. Qed.

Example path_join_example :
  path_join "data/a" "segments_log.txt" = "data/a/segments_log.txt".
Proof. reflexivity. Qed.

(** ** The sanitizer *)

Lemma remove_class_clean (cls : ascii -> bool) (s : string) :
  string_forallb (fun c => negb (cls c)) (remove_class cls s) = true.
Proof.
  induction s as [|c s IH]; simpl; [done |].
  destruct (cls c) eqn:E; simpl; [done |]. by rewrite E, IH.
Qed.

Lemma take_forallb (p : ascii -> bool) (n : nat) (s : string) :
  string_forallb p s = true -> string_forallb p (take_chars n s) = true.
Proof.
  revert s. induction n as [|n IH]; intros [|c s]; simpl; try done.
  intros H. apply andb_prop in H as [-> Hs]. simpl. by apply IH.
Qed.

Lemma take_length (n : nat) (s : string) :
  (String.length (take_chars n s) <= n)%nat.
Proof.
  revert s. induction n as [|n IH]; intros [|c s]; simpl; try lia.
  specialize (IH s). lia.
Qed.

Lemma slice_to_forallb (p : ascii -> bool) (s : string) (k : Z) :
  string_forallb p s = true -> string_forallb p (slice_to s k) = true.
Proof. intros H. unfold slice_to. destruct (k <? 0); by apply take_forallb. Qed.

Lemma slice_to_length (s : string) (k : Z) :
  0 <= k -> Z.of_nat (String.length (slice_to s k)) <= k.
Proof.
  intros Hk. unfold slice_to.
  destruct (Z.ltb_spec k 0) as [?|_]; [lia |].
  pose proof (take_length (Z.to_nat k) s). lia.
Qed.

(** C9, as worded: with a negative [max_length] the slice [text[:max_length]]
    drops characters from the end, and what is left is longer than
    [max_length]. *)
Lemma sanitizer_bound_fails_for_negative_max_length :
  ~ sanitizer_bound_for_every_max_length.
Proof.
  intros H. destruct (H "abc" (-1)) as [_ Hlen].
  vm_compute in Hlen. by apply Hlen.
Qed.

(** C9, amended: for every text and every [max_length], the output of
    [clean_filename] (in both splitter files) holds none of the characters
    backslash, slash, asterisk, question mark, colon, double quote,
    less-than, greater-than, vertical bar; when [max_length >= 0] its length
    is at most [max_length], and with the default it is at most 50. *)
Theorem clean_filename_safe_and_bounded (text : string) (max_length : Z) :
  string_forallb (fun c => negb (is_forbidden c))
    (Stt_Audio_split_audio.clean_filename text max_length) = true /\
  string_forallb (fun c => negb (is_forbidden c))
    (stt_training_data_split_audio.clean_filename text max_length) = true /\
  (0 <= max_length ->
   Z.of_nat (String.length (Stt_Audio_split_audio.clean_filename text max_length))
     <= max_length /\
   Z.of_nat (String.length (stt_training_data_split_audio.clean_filename text max_length))
     <= max_length) /\
  (String.length (Stt_Audio_split_audio.clean_filename_default text) <= 50)%nat /\
  (String.length (stt_training_data_split_audio.clean_filename_default text) <= 50)%nat.
Proof.
  unfold Stt_Audio_split_audio.clean_filename_default,
    stt_training_data_split_audio.clean_filename_default,
    Stt_Audio_split_audio.clean_filename,
    stt_training_data_split_audio.clean_filename.
  assert (Hd := slice_to_length (remove_class is_forbidden text) 50).
  repeat split.
  - apply slice_to_forallb, remove_class_clean.
  - apply slice_to_forallb, remove_class_clean.
  - by apply slice_to_length.
  - by apply slice_to_length.
  - lia.
  - lia.
Qed.

Lemma clean_filename_safe_and_bounded_witness :
  0 <= 3 /\
  Z.of_nat (String.length (Stt_Audio_split_audio.clean_filename "a/b:c*d?e" 3)) <= 3.
Proof.
  split; [lia |].
  apply (clean_filename_safe_and_bounded "a/b:c*d?e" 3). lia.
Defined.

(** ** The Parser: one matched block *)

Section parser_blocks.
Import generate_csv_file.

Lemma split_on_nonempty (sep : ascii) (s : string) : split_on sep s <> [].
Proof.
  induction s as [|c s IH]; simpl; [done |].
  destruct (Ascii.eqb c sep); [done |].
  by destruct (split_on sep s).
Qed.

Lemma py_float_raises_value_error (s : string) (e : exn) :
  py_float s = Raised e -> e = ValueError.
Proof.
  unfold py_float. destruct (split_dot s) as [ip rest].
  destruct (ip +:+ _) as [|c ds]; [congruence |].
  destruct (digits_value _) as [[|n]|]; congruence.
Qed.

Lemma process_segment_two_tokens (seg : segment) (t0 t1 : string) (ts : list string) :
  split_on "_" (filename seg) = t0 :: t1 :: ts ->
  process_segment seg =
    let* d := py_float (duration seg) in
    Returned {| file_name := filename seg;
                dept := t1;
                audio_url := CLOUDFRONT_URL +:+ filename seg;
                audio_duration_in_seconds := d;
                transcript := strip (transcription seg) |}.
Proof. intros H. unfold process_segment. by rewrite H. Qed.

Lemma process_segment_one_token (seg : segment) (t0 : string) :
  split_on "_" (filename seg) = [t0] ->
  process_segment seg = Raised IndexError.
Proof. intros H. unfold process_segment. by rewrite H. Qed.

(** C3: the example block of the specification, followed by the separator,
    parses to exactly one manifest row: file name
    STT_TT_D001_0001_0_to_3000.wav, department TT (the token at index 1),
    URL the base URL followed by the file name, duration the float 3.0 and
    transcript hello. *)
Theorem example_block_parses_to_one_row :
  process_segments (extract_segments example_block) =
    Returned
      [ {| file_name := "STT_TT_D001_0001_0_to_3000.wav";
           dept := "TT";
           audio_url := CLOUDFRONT_URL +:+ "STT_TT_D001_0001_0_to_3000.wav";
           audio_duration_in_seconds := float_3_0;
           transcript := "hello" |} ] /\
  nth_error (split_on "_" "STT_TT_D001_0001_0_to_3000.wav") 1 = Some "TT" /\
  strip "hello" = "hello".
Proof. vm_compute. done. Qed.

(** C7: extracting the department code raises [IndexError] exactly when
    the file name has fewer than two tokens between underscores; with two
    tokens or more it yields the token at index 1, which becomes the [dept]
    of the row. *)
Theorem dept_extraction_fails_exactly_on_short_names (seg : segment) :
  let tokens := split_on "_" (filename seg) in
  ((length tokens < 2)%nat ->
     index_list tokens 1 = Raised IndexError /\
     process_segment seg = Raised IndexError /\
     process_segments [seg] = Raised IndexError) /\
  ((2 <= length tokens)%nat ->
     exists d, nth_error tokens 1 = Some d /\
       index_list tokens 1 = Returned d /\
       process_segment seg <> Raised IndexError /\
       (forall row, process_segment seg = Returned row -> dept row = d)) /\
  (process_segment seg = Raised IndexError <-> (length tokens < 2)%nat).
Proof.
  intros tokens.
  assert (Hne := split_on_nonempty "_" (filename seg)).
  destruct (split_on "_" (filename seg)) as [|t0 [|t1 ts]] eqn:E; [done | |];
    subst tokens; simpl.
  - assert (Hp := process_segment_one_token seg t0 E).
    unfold process_segments. simpl. rewrite Hp.
    repeat split; auto; lia.
  - assert (Hp := process_segment_two_tokens seg t0 t1 ts E).
    assert (Hno : process_segment seg <> Raised IndexError).
    { rewrite Hp. destruct (py_float (duration seg)) as [d|e] eqn:Ef; simpl; [done |].
      apply py_float_raises_value_error in Ef. by subst e. }
    repeat split; try lia.
    + intros _. exists t1. repeat split; auto.
      intros row. rewrite Hp.
      destruct (py_float (duration seg)); simpl; [|done].
      by intros [= <-].
    + intros H. by apply Hno in H.
Qed.

Lemma dept_extraction_fails_exactly_on_short_names_witness :
  process_segment {| segment_id := "0001"; start_time := "0.00"; end_time := "3.00";
                     duration := "3.00"; filename := "plain.wav";
                     transcription := "hello" |} = Raised IndexError /\
  exists d, nth_error (split_on "_" "STT_TT_D001_0001_0_to_3000.wav") 1 = Some d.
Proof.
  split.
  - apply (dept_extraction_fails_exactly_on_short_names
             {| segment_id := "0001"; start_time := "0.00"; end_time := "3.00";
                duration := "3.00"; filename := "plain.wav";
                transcription := "hello" |}).
    simpl. lia.
  - destruct (proj1 (proj2 (dept_extraction_fails_exactly_on_short_names
             {| segment_id := "0001"; start_time := "0.00"; end_time := "3.00";
                duration := "3.00"; filename := "STT_TT_D001_0001_0_to_3000.wav";
                transcription := "hello" |}))) as (d & Hd & _).
    + simpl. lia.
    + by exists d.
Defined.

Lemma process_segment_same_used_fields (s1 s2 : segment) :
  same_used_fields s1 s2 -> process_segment s1 = process_segment s2.
Proof.
  intros (Hd & Hf & Ht). unfold process_segment. by rewrite Hd, Hf, Ht.
Qed.

Lemma process_segments_from_same_used_fields (l1 l2 : list segment) (data : list manifest_row) :
  Forall2 same_used_fields l1 l2 ->
  process_segments_from data l1 = process_segments_from data l2.
Proof.
  intros H. revert data.
  induction H as [|s1 s2 l1 l2 Hs _ IH]; intros data; simpl; [done |].
  rewrite (process_segment_same_used_fields s1 s2 Hs).
  destruct (process_segment s2); simpl; [apply IH | done].
Qed.

(** C10: two lists of matched tuples that agree, position by position, on
    the duration, the file name and the transcription give the same result
    of [process_segments], whatever their sequence numbers, start times
    and end times are; the same holds for the copy in
    [drupchen_training_data_format]. *)
Theorem process_segments_ignores_unused_captures (l1 l2 : list segment) :
  Forall2 same_used_fields l1 l2 ->
  process_segments l1 = process_segments l2 /\
  drupchen_training_data_format.process_segments l1 =
    drupchen_training_data_format.process_segments l2.
Proof.
  intros H. unfold drupchen_training_data_format.process_segments, process_segments.
  split; by apply process_segments_from_same_used_fields.
Qed.

Lemma process_segments_ignores_unused_captures_witness :
  process_segments
    [ {| segment_id := "0001"; start_time := "0.00"; end_time := "3.00";
         duration := "3.00"; filename := "STT_TT_D001_0001_0_to_3000.wav";
         transcription := "hello" |} ] =
  process_segments
    [ {| segment_id := "9"; start_time := "7."; end_time := "..";
         duration := "3.00"; filename := "STT_TT_D001_0001_0_to_3000.wav";
         transcription := "hello" |} ].
Proof.
  apply process_segments_ignores_unused_captures.
  constructor; [| constructor].
  unfold same_used_fields. simpl. done.
Defined.

End parser_blocks.

(** ** The Parser: folders and the manifest *)

Section parser_folders.
Import generate_csv_file.

Variable encode : manifest_row -> string.

Lemma collect_flat (fs : filesystem) (folders : list string) (data : list manifest_row) :
  collect fs data folders = data ++ flat_map (contribution fs) folders.
Proof.
  revert data. induction folders as [|f folders IH]; intros data; simpl.
  - by rewrite app_nil_r.
  - unfold contribution. destruct (folder_rows fs f) as [rows|e].
    + by rewrite IH, <- app_assoc.
    + by rewrite IH.
Qed.

Lemma get_log_file_missing (fs : filesystem) (folder : string) (names : list string) :
  listing fs !! folder = Some names ->
  List.filter (fun f => startswith f "segments_log") names = [] ->
  get_log_file fs folder = Raised FileNotFoundError.
Proof.
  intros Hl Hf. unfold get_log_file, listdir. rewrite Hl. simpl. by rewrite Hf.
Qed.

Lemma csv_lines_no_index (i : N) (rows : list manifest_row) :
  csv_lines encode false i rows =
    concat_strings (map (fun r => encode r +:+ nl) rows).
Proof.
  revert i. induction rows as [|r rows IH]; intros i; simpl; [done |].
  by rewrite IH, append_assoc.
Qed.

Lemma to_csv_no_index (rows : list manifest_row) :
  to_csv encode false rows =
    manifest_header +:+ nl +:+ concat_strings (map (fun r => encode r +:+ nl) rows).
Proof.
  unfold to_csv. rewrite csv_lines_no_index.
  change (String.concat "," manifest_columns) with manifest_header.
  done.
Qed.

Lemma first_line_to_csv (rows : list manifest_row) :
  first_line (to_csv encode false rows) = manifest_header.
Proof.
  rewrite to_csv_no_index. unfold nl.
  change (String LF "" +:+ ?t) with (String LF t).
  by apply first_line_append.
Qed.

Lemma flat_map_all_empty (fs : filesystem) (folders : list string) :
  Forall (fun f => contribution fs f = []) folders ->
  flat_map (contribution fs) folders = [].
Proof.
  induction 1 as [|f folders Hf _ IH]; simpl; [done |]. by rewrite Hf, IH.
Qed.

(** C5: a folder whose log cannot be located or processed adds no row, and
    the rows of the run are those of the run without that folder; a folder
    that lists no name starting with [segments_log] fails with
    [FileNotFoundError]. *)
Theorem failing_folder_is_isolated (fs : filesystem) (before after : list string)
    (folder output_csv : string) :
  (forall names,
     listing fs !! folder = Some names ->
     List.filter (fun f => startswith f "segments_log") names = [] ->
     get_log_file fs folder = Raised FileNotFoundError /\
     folder_rows fs folder = Raised FileNotFoundError) /\
  (forall e,
     folder_rows fs folder = Raised e ->
     contribution fs folder = [] /\
     collect fs [] (before ++ folder :: after) = collect fs [] (before ++ after) /\
     collect fs [] (before ++ folder :: after) =
       flat_map (contribution fs) before ++ flat_map (contribution fs) after /\
     process_audio_folders encode fs (before ++ folder :: after) output_csv =
       process_audio_folders encode fs (before ++ after) output_csv).
Proof.
  split.
  - intros names Hl Hf.
    assert (Hg := get_log_file_missing fs folder names Hl Hf).
    split; [done |]. unfold folder_rows. by rewrite Hg.
  - intros e He.
    assert (Hc : contribution fs folder = []).
    { unfold contribution. by rewrite He. }
    assert (Heq : collect fs [] (before ++ folder :: after) =
                  collect fs [] (before ++ after)).
    { rewrite !collect_flat, !flat_map_app. simpl. by rewrite Hc. }
    repeat split; try done.
    + rewrite Heq, collect_flat, flat_map_app. done.
    + unfold process_audio_folders. by rewrite Heq.
Qed.

(** C8: every run of [process_audio_folders] writes the manifest; its first
    line is the header of the five columns, without an index column; the
    rows follow, and when no folder contributes a row the file is the
    header line alone. *)
Theorem manifest_is_always_written (fs : filesystem) (folders : list string)
    (output_csv : string) :
  exists text,
    process_audio_folders encode fs folders output_csv !! output_csv = Some text /\
    first_line text = manifest_header /\
    split_on "," (first_line text) = manifest_columns /\
    text = manifest_header +:+ nl +:+
           concat_strings (map (fun r => encode r +:+ nl) (collect fs [] folders)) /\
    (Forall (fun f => contribution fs f = []) folders ->
     text = manifest_header +:+ nl).
Proof.
  exists (to_csv encode false (collect fs [] folders)).
  unfold process_audio_folders, save_to_csv.
  rewrite lookup_singleton_eq, first_line_to_csv.
  repeat split; try done.
  - apply to_csv_no_index.
  - intros H. rewrite collect_flat, (flat_map_all_empty fs folders H). done.
Qed.

Global Instance by_file_name_total : Total by_file_name.
Proof. intros a b. unfold by_file_name. apply (total String.le). Qed.

Lemma sort_values_sorted (rows : list manifest_row) :
  Sorted by_file_name (sort_values rows).
Proof. unfold sort_values. apply (Sorted_merge_sort by_file_name). Qed.

Lemma sort_values_permutation (rows : list manifest_row) :
  sort_values rows ≡ₚ rows.
Proof. unfold sort_values. apply merge_sort_Permutation. Qed.

Lemma sorted_names_unique (l1 l2 : list manifest_row) :
  Sorted by_file_name l1 -> Sorted by_file_name l2 -> l1 ≡ₚ l2 ->
  map file_name l1 = map file_name l2.
Proof.
  intros H1 H2 Hp.
  apply (Sorted_unique String.le).
  - by apply (Sorted_fmap file_name by_file_name String.le).
  - by apply (Sorted_fmap file_name by_file_name String.le).
  - by apply Permutation_map.
Qed.

Lemma flat_map_permutation (fs : filesystem) (l1 l2 : list string) :
  l1 ≡ₚ l2 -> flat_map (contribution fs) l1 ≡ₚ flat_map (contribution fs) l2.
Proof.
  induction 1 as [|x l1 l2 _ IH|x y l|l1 l2 l3 _ IH1 _ IH2]; simpl.
  - done.
  - by rewrite IH.
  - rewrite !app_assoc. by rewrite (Permutation_app_comm (contribution fs y)).
  - by rewrite IH1.
Qed.

(** C4: the variant without sorting writes the rows in the order in which
    the folders of the list produced them; the sorting variant writes a
    rearrangement of the same rows that ascends by [file_name], and the
    file names come out in the same order for every order of the list of
    folders. *)
Theorem manifest_row_order (fs : filesystem) (folders folders' : list string)
    (output_csv : string) :
  process_audio_folders encode fs folders output_csv =
    {[ output_csv := manifest_header +:+ nl +:+
         concat_strings (map (fun r => encode r +:+ nl)
                           (flat_map (contribution fs) folders)) ]} /\
  exists rows,
    drupchen_training_data_format.process_audio_folders encode fs folders output_csv =
      {[ output_csv := manifest_header +:+ nl +:+
           concat_strings (map (fun r => encode r +:+ nl) rows) ]} /\
    Sorted by_file_name rows /\
    rows ≡ₚ flat_map (contribution fs) folders /\
    (folders ≡ₚ folders' ->
     map file_name rows =
       map file_name (sort_values (flat_map (contribution fs) folders'))).
Proof.
  split.
  - unfold process_audio_folders, save_to_csv.
    by rewrite to_csv_no_index, collect_flat.
  - exists (sort_values (flat_map (contribution fs) folders)).
    unfold drupchen_training_data_format.process_audio_folders,
      drupchen_training_data_format.save_to_csv,
      drupchen_training_data_format.collect.
    rewrite to_csv_no_index, collect_flat. simpl.
    repeat split.
    + apply sort_values_sorted.
    + apply sort_values_permutation.
    + intros Hp. apply sorted_names_unique; try apply sort_values_sorted.
      rewrite !sort_values_permutation. by apply flat_map_permutation.
Qed.

End parser_folders.

(** ** Examples on the sample folders *)

Lemma failing_folder_is_isolated_witness :
  generate_csv_file.folder_rows sample_fs "data/b" = Raised FileNotFoundError /\
  generate_csv_file.collect sample_fs [] ["data/a"; "data/b"; "data/c"] =
    generate_csv_file.collect sample_fs [] ["data/a"; "data/c"].
Proof.
  assert (H : generate_csv_file.folder_rows sample_fs "data/b" = Raised FileNotFoundError)
    by (vm_compute; reflexivity).
  split; [exact H |].
  apply (proj2 (failing_folder_is_isolated sample_encode sample_fs
                  ["data/a"] ["data/c"] "data/b" "out.csv") _ H).
Defined.

Lemma manifest_is_always_written_witness :
  exists text,
    generate_csv_file.process_audio_folders sample_encode sample_fs
      ["data/b"; "data/missing"] "out.csv" !! "out.csv" = Some text /\
    text = manifest_header +:+ nl.
Proof.
  destruct (manifest_is_always_written sample_encode sample_fs
              ["data/b"; "data/missing"] "out.csv") as (text & Hw & _ & _ & _ & He).
  exists text. split; [exact Hw |].
  apply He. repeat constructor.
Defined.

Lemma manifest_row_order_witness :
  ["data/a"; "data/c"] ≡ₚ ["data/c"; "data/a"] /\
  exists rows,
    drupchen_training_data_format.process_audio_folders sample_encode sample_fs
      ["data/a"; "data/c"] "out.csv" =
      {[ "out.csv" := manifest_header +:+ nl +:+
           concat_strings (map (fun r => sample_encode r +:+ nl) rows) ]} /\
    map file_name rows =
      map file_name (sort_values (flat_map (contribution sample_fs) ["data/c"; "data/a"])).
Proof.
  assert (Hp : ["data/a"; "data/c"] ≡ₚ ["data/c"; "data/a"]) by apply perm_swap.
  split; [exact Hp |].
  destruct (proj2 (manifest_row_order sample_encode sample_fs
                     ["data/a"; "data/c"] ["data/c"; "data/a"] "out.csv"))
    as (rows & Hw & _ & _ & Hn).
  exists rows. split; [exact Hw | exact (Hn Hp)].
Defined.

(** ** Decimal renderings *)

Lemma string_of_uint_digits (d : uint) :
  string_forallb is_digit (NilEmpty.string_of_uint d) = true.
Proof. induction d; simpl; auto. Qed.

Lemma dec_digits (n : N) : string_forallb is_digit (dec n) = true.
Proof. apply string_of_uint_digits. Qed.

Lemma zeros_digits (k : nat) : string_forallb is_digit (zeros k) = true.
Proof. induction k; simpl; auto. Qed.

Lemma zeros_length (k : nat) : String.length (zeros k) = k.
Proof. induction k; simpl; auto. Qed.

Lemma fmt_04d_digits (n : N) : string_forallb is_digit (fmt_04d n) = true.
Proof.
  unfold fmt_04d. by rewrite string_forallb_append, zeros_digits, dec_digits.
Qed.

Lemma fmt_04d_length (n : N) : (4 <= String.length (fmt_04d n))%nat.
Proof. unfold fmt_04d. rewrite length_append, zeros_length. lia. Qed.

Lemma fmt_04d_nonempty (n : N) : fmt_04d n <> "".
Proof.
  intros H. pose proof (fmt_04d_length n) as Hl. rewrite H in Hl. simpl in Hl. lia.
Qed.

Lemma uint_of_string_zeros (k : nat) (s : string) :
  option_map N.of_uint (NilEmpty.uint_of_string (zeros k +:+ s)) =
  option_map N.of_uint (NilEmpty.uint_of_string s).
Proof.
  induction k as [|k IH]; simpl; [done |].
  rewrite <- IH. by destruct (NilEmpty.uint_of_string (zeros k +:+ s)).
Qed.

Lemma fmt_04d_value (n : N) :
  option_map N.of_uint (NilEmpty.uint_of_string (fmt_04d n)) = Some n.
Proof.
  unfold fmt_04d, dec. rewrite uint_of_string_zeros, NilEmpty.usu. simpl.
  by rewrite DecimalN.Unsigned.of_to.
Qed.

Lemma fmt_04d_inj (n m : N) : fmt_04d n = fmt_04d m -> n = m.
Proof.
  intros H. pose proof (fmt_04d_value n) as Hn. rewrite H, fmt_04d_value in Hn.
  congruence.
Qed.


Lemma append_cancel_l (p a b : string) : p +:+ a = p +:+ b -> a = b.
Proof. induction p as [|c p IH]; simpl; [done |]. intros [= H]. by apply IH. Qed.

Lemma digits_then_separator (u v x y : string) (c c' : ascii) :
  string_forallb is_digit u = true -> string_forallb is_digit v = true ->
  is_digit c = false -> is_digit c' = false ->
  u +:+ String c x = v +:+ String c' y -> u = v.
Proof.
  revert v. induction u as [|a u IH]; intros [|b v] Hu Hv Hc Hc'; simpl in *; intros E.
  - done.
  - injection E as -> _. apply andb_prop in Hv as [Hv _]. congruence.
  - injection E as -> _. apply andb_prop in Hu as [Hu _]. congruence.
  - injection E as -> E.
    apply andb_prop in Hu as [_ Hu]. apply andb_prop in Hv as [_ Hv].
    f_equal. by apply IH.
Qed.

Lemma segment_name_index (prefix : string) (i j : nat) (s1 e1 s2 e2 : Z) :
  segment_name prefix i s1 e1 = segment_name prefix j s2 e2 -> i = j.
Proof.
  unfold segment_name. intros H.
  apply append_cancel_l in H. simpl in H. injection H as H.
  apply digits_then_separator in H; try apply fmt_04d_digits; try done.
  apply fmt_04d_inj in H. lia.
Qed.

(** ** The Audio Splitter: the run in closed form *)

Section splitter_run.

Variable audio : Type.
Variable slice : audio -> Z -> Z -> outcome audio.
Variable export : audio -> string -> outcome string.
Variable log_fault : nat -> option nat.

Local Abbreviation body_of := (row_body audio slice export log_fault).
Local Abbreviation output_of := (row_output audio slice export).
Local Abbreviation valid_at := (row_valid audio slice export log_fault).
Local Abbreviation valid_from := (rows_valid audio slice export log_fault).
Local Abbreviation part_of := (log_part audio slice export log_fault).
Local Abbreviation parts_from := (log_parts audio slice export log_fault).
Local Abbreviation files_from := (files_after audio slice export).
Local Abbreviation loop_from := (process_rows audio slice export log_fault).
Local Abbreviation split_run := (split_with_prefix audio slice export log_fault).

Lemma row_body_output (prefix : string) (a : audio) (index : nat) (row : timing_row)
    (st : out_dir) :
  body_of prefix a index row st =
    match output_of prefix a index row with
    | Returned (name, bytes, times) =>
        append_log log_fault index
          (log_writes index times (path_name name) (transcription row))
          {| files := <[name := bytes]> (files st); log := log st |}
    | Raised e => (Raised e, st)
    end.
Proof.
  unfold row_body, row_output, bind, lift, export_to.
  destruct (py_int (start_time row)) as [start|]; simpl; [|done].
  destruct (py_int (end_time row)) as [stop|]; simpl; [|done].
  destruct (py_int (duration row)) as [dur|]; simpl; [|done].
  destruct (time_text start stop dur) as [times|]; simpl; [|done].
  destruct (slice a start stop) as [segment|]; simpl; [|done].
  destruct (export segment _) as [bytes|]; simpl; done.
Qed.

Lemma row_output_inv (prefix : string) (a : audio) (index : nat) (row : timing_row)
    (name bytes times : string) :
  output_of prefix a index row = Returned (name, bytes, times) ->
  exists start stop dur segment,
    start_time row = CInt start /\ end_time row = CInt stop /\
    duration row = CInt dur /\
    time_text start stop dur = Returned times /\
    slice a start stop = Returned segment /\
    name = segment_name prefix index start stop /\
    export segment name = Returned bytes.
Proof.
  unfold row_output.
  destruct (start_time row) as [start|]; simpl; [|done].
  destruct (end_time row) as [stop|]; simpl; [|done].
  destruct (duration row) as [dur|]; simpl; [|done].
  destruct (time_text start stop dur) as [t|] eqn:Et; simpl; [|done].
  destruct (slice a start stop) as [segment|] eqn:Es; simpl; [|done].
  destruct (export segment _) as [b|] eqn:Ee; simpl; [|done].
  intros [= <- <- <-]. exists start, stop, dur, segment.
  unfold segment_name. repeat split; done.
Qed.

(** One turn of the loop: the [try] never lets an exception out, and the
    row changes the directory by its own output only. *)
Lemma try_row_step (prefix : string) (a : audio) (index : nat) (row : timing_row)
    (st : out_dir) :
  try_continue (body_of prefix a index row) st =
    (Returned tt,
     {| files := files_from prefix a index [row] (files st);
        log := log st +:+ part_of prefix a index row |}).
Proof.
  unfold try_continue. rewrite row_body_output.
  unfold log_part, append_log. simpl.
  destruct (output_of prefix a index row) as [[[name bytes] times]|e].
  - destruct (log_fault index); simpl; done.
  - rewrite append_nil_r. by destruct st.
Qed.

Lemma process_rows_closed (prefix : string) (a : audio) (rows : list timing_row) :
  forall (index : nat) (st : out_dir),
    loop_from prefix a index rows st =
      (Returned tt,
       {| files := files_from prefix a index rows (files st);
          log := log st +:+ parts_from prefix a index rows |}).
Proof.
  induction rows as [|row rows IH]; intros index st; simpl.
  - unfold ret. rewrite append_nil_r. by destruct st.
  - unfold bind. rewrite try_row_step, IH. simpl. by rewrite append_assoc.
Qed.

Lemma process_rows_app (prefix : string) (a : audio) (before after : list timing_row)
    (index : nat) (st : out_dir) :
  loop_from prefix a index (before ++ after) st =
    loop_from prefix a (index + length before) after
      (snd (loop_from prefix a index before st)).
Proof.
  revert index st. induction before as [|row before IH]; intros index st; simpl.
  - by rewrite Nat.add_0_r.
  - unfold bind. rewrite try_row_step, IH. simpl.
    by rewrite Nat.add_succ_r.
Qed.

Lemma log_parts_app (prefix : string) (a : audio) (before after : list timing_row)
    (index : nat) :
  parts_from prefix a index (before ++ after) =
    parts_from prefix a index before +:+
    parts_from prefix a (index + length before) after.
Proof.
  revert index. induction before as [|row before IH]; intros index; simpl.
  - by rewrite Nat.add_0_r.
  - rewrite IH, append_assoc.
    by rewrite Nat.add_succ_r.
Qed.

Lemma files_after_app (prefix : string) (a : audio) (before after : list timing_row)
    (index : nat) (m : gmap string string) :
  files_from prefix a index (before ++ after) m =
    files_from prefix a (index + length before) after
      (files_from prefix a index before m).
Proof.
  revert index m. induction before as [|row before IH]; intros index m; simpl.
  - by rewrite Nat.add_0_r.
  - rewrite IH.
    by rewrite Nat.add_succ_r.
Qed.

Lemma split_with_prefix_closed (prefix : string) (inp : split_input audio)
    (rows : list timing_row) (a : audio) (st : out_dir) :
  mkdir audio inp = Returned tt ->
  audio_exists audio inp = true -> csv_exists audio inp = true ->
  read_csv audio inp = Returned rows -> from_mp3 audio inp = Returned a ->
  header_write audio inp = Written ->
  split_run prefix inp st =
    (Returned tt,
     {| files := files_from prefix a 0 rows (files st);
        log := log_header +:+ parts_from prefix a 0 rows |}).
Proof.
  intros Hk Ha Hc Hr Hm Hw. unfold split_with_prefix, bind, lift.
  rewrite Hk, Ha, Hc, Hr, Hm, Hw. simpl. unfold write_log.
  by rewrite process_rows_closed.
Qed.

(** *** File names and what the rows leave in the directory *)

Lemma concat_log_writes (index : nat) (times name transcription : string) :
  concat_strings (log_writes index times name transcription) =
    log_block index times name transcription.
Proof.
  unfold log_writes, log_block. simpl.
  rewrite !append_assoc. simpl. done.
Qed.

Lemma row_valid_inv (prefix : string) (a : audio) (index : nat) (row : timing_row) :
  valid_at prefix a index row = true ->
  exists name bytes times,
    output_of prefix a index row = Returned (name, bytes, times) /\
    log_fault index = None /\
    part_of prefix a index row =
      log_block index times (path_name name) (transcription row).
Proof.
  unfold row_valid, log_part.
  destruct (output_of prefix a index row) as [[[name bytes] times]|e]; [|done].
  destruct (log_fault index); [done |]. intros _.
  exists name, bytes, times. by rewrite concat_log_writes.
Qed.


Lemma files_after_other (prefix : string) (a : audio) (rows : list timing_row) :
  forall (index : nat) (m : gmap string string) (key : string),
    ~ named_from prefix index key ->
    files_from prefix a index rows m !! key = m !! key.
Proof.
  induction rows as [|row rows IH]; intros index m key Hk; simpl; [done |].
  rewrite IH.
  - destruct (output_of prefix a index row) as [[[name bytes] times]|e] eqn:E; [|done].
    apply row_output_inv in E as (start & stop & _ & _ & _ & _ & _ & _ & _ & -> & _).
    apply lookup_insert_ne. intros <-. apply Hk.
    exists index, start, stop. split; [lia | done].
  - intros (j & start & stop & Hj & ->). apply Hk.
    exists j, start, stop. split; [lia | done].
Qed.

Lemma earlier_name_not_later (prefix : string) (i index : nat) (start stop : Z) :
  (i < index)%nat -> ~ named_from prefix index (segment_name prefix i start stop).
Proof.
  intros Hi (j & s & e & Hj & E). apply segment_name_index in E. lia.
Qed.

Lemma files_after_lookup (prefix : string) (a : audio) (rows : list timing_row) :
  forall (index j : nat) (m : gmap string string) (row : timing_row)
         (name bytes times : string),
    rows !! j = Some row ->
    output_of prefix a (index + j) row = Returned (name, bytes, times) ->
    files_from prefix a index rows m !! name = Some bytes.
Proof.
  induction rows as [|r rows IH]; intros index j m row name bytes times Hl Ho; [done |].
  destruct j as [|j]; simpl in Hl.
  - injection Hl as ->. rewrite Nat.add_0_r in Ho. simpl. rewrite Ho.
    apply row_output_inv in Ho as (start & stop & _ & _ & _ & _ & _ & _ & _ & -> & _).
    rewrite files_after_other; [apply lookup_insert_eq |].
    apply earlier_name_not_later. lia.
  - simpl. rewrite Nat.add_succ_r in Ho. by apply (IH (S index) j _ row name bytes times).
Qed.





(** *** A row that raises *)

Lemma log_parts_at (prefix : string) (a : audio) (rows : list timing_row)
    (index j : nat) (row : timing_row) :
  rows !! j = Some row ->
  parts_from prefix a index rows =
    parts_from prefix a index (take j rows) +:+
    part_of prefix a (index + j) row +:+
    parts_from prefix a (S (index + j)) (drop (S j) rows).
Proof.
  intros Hl.
  rewrite <- (take_drop_middle rows j row Hl) at 1.
  rewrite log_parts_app. simpl.
  assert (Hlen : length (take j rows) = j).
  { apply length_take_le. apply lookup_lt_Some in Hl. lia. }
  by rewrite Hlen.
Qed.

(** C6: when the body of the [try] raises for one row, the loop goes on
    with the next row from the directory as it was at the raise; the log
    written before is a prefix of the final log and the files of the
    earlier rows are still there with their bytes (no rollback); and every
    later valid row has its file and its block in the final directory, the
    final log being the text of each row in turn. *)
Theorem failing_row_is_skipped_alone (prefix : string) (a : audio)
    (before after : list timing_row) (row : timing_row) (e : exn)
    (st st_fail : out_dir) :
  let index := length before in
  let st_before := snd (loop_from prefix a 0 before st) in
  let final := snd (loop_from prefix a 0 (before ++ row :: after) st) in
  body_of prefix a index row st_before = (Raised e, st_fail) ->
  loop_from prefix a 0 (before ++ row :: after) st =
    loop_from prefix a (S index) after st_fail /\
  fst (loop_from prefix a 0 (before ++ row :: after) st) = Returned tt /\
  (exists more, log final = log st_before +:+ more) /\
  (forall i r name bytes times,
     before !! i = Some r ->
     output_of prefix a i r = Returned (name, bytes, times) ->
     files st_before !! name = Some bytes /\ files final !! name = Some bytes) /\
  (forall j r,
     after !! j = Some r ->
     valid_at prefix a (S index + j) r = true ->
     exists name bytes times,
       output_of prefix a (S index + j) r = Returned (name, bytes, times) /\
       files final !! name = Some bytes /\
       exists pre post,
         log final =
           pre +:+ log_block (S index + j) times (path_name name) (transcription r)
           +:+ post) /\
  log final =
    log st_before +:+ part_of prefix a index row +:+
    parts_from prefix a (S index) after /\
  files final = files_from prefix a (S index) after (files st_fail).
Proof.
  intros index st_before final Hraise.
  assert (Hstep := try_row_step prefix a index row st_before).
  unfold try_continue in Hstep. rewrite Hraise in Hstep.
  injection Hstep as Hfail.
  assert (Hgo : loop_from prefix a 0 (before ++ row :: after) st =
                loop_from prefix a (S index) after st_fail).
  { rewrite process_rows_app. simpl. unfold bind, try_continue.
    fold index. fold st_before. by rewrite Hraise. }
  assert (Hfinal : final =
            {| files := files_from prefix a (S index) after (files st_fail);
               log := log st_fail +:+ parts_from prefix a (S index) after |}).
  { unfold final. by rewrite Hgo, process_rows_closed. }
  assert (Hbefore : st_before =
            {| files := files_from prefix a 0 before (files st);
               log := log st +:+ parts_from prefix a 0 before |}).
  { unfold st_before. by rewrite process_rows_closed. }
  assert (Hlog : log final =
            log st_before +:+ part_of prefix a index row +:+
            parts_from prefix a (S index) after).
  { rewrite Hfinal, Hfail. simpl. by rewrite append_assoc. }
  split; [exact Hgo |]. split; [by rewrite process_rows_closed |].
  split; [by eexists |]. split; [| split; [| split]].
  - intros i r name bytes times Hl Ho.
    assert (Hi : (i < index)%nat) by (by apply lookup_lt_Some in Hl).
    assert (Hold : files st_before !! name = Some bytes).
    { rewrite Hbefore. simpl.
      by apply (files_after_lookup prefix a before 0 i (files st) r name bytes times). }
    split; [exact Hold |].
    rewrite Hfinal, Hfail. simpl.
    apply row_output_inv in Ho as (s1 & e1 & _ & _ & _ & _ & _ & _ & _ & Hn & _).
    rewrite files_after_other.
    + destruct (output_of prefix a index row) as [[[n b] t]|] eqn:E; [| exact Hold].
      apply row_output_inv in E as (s2 & e2 & _ & _ & _ & _ & _ & _ & _ & Hn2 & _).
      rewrite lookup_insert_ne; [exact Hold |].
      intros Heq. rewrite Hn, Hn2 in Heq. apply segment_name_index in Heq. lia.
    + rewrite Hn. apply earlier_name_not_later. lia.
  - intros j r Hl Hv.
    apply row_valid_inv in Hv as (name & bytes & times & Ho & _ & Hp).
    exists name, bytes, times. split; [exact Ho |]. split.
    + rewrite Hfinal. simpl.
      by apply (files_after_lookup prefix a after (S index) j _ r name bytes times).
    + rewrite Hfinal.
      change (log {| files := ?f; log := ?l |}) with l.
      rewrite (log_parts_at prefix a after (S index) j r Hl), Hp.
      exists (log st_fail +:+ parts_from prefix a (S index) (take j after)).
      eexists. symmetry. apply append_assoc.
  - exact Hlog.
  - by rewrite Hfinal.
Qed.

End splitter_run.

(** ** Examples on the sample timing rows *)


Lemma failing_row_is_skipped_alone_witness :
  let run := process_rows string sample_slice sample_export sample_log_fault
               "STT_TT_D002" sample_wave in
  let st_before := snd (run 0%nat [sample_row_hello] empty_dir) in
  row_body string sample_slice sample_export sample_log_fault
    "STT_TT_D002" sample_wave 1 sample_row_lost st_before =
    (Raised ValueError, st_before) /\
  run 0%nat [sample_row_hello; sample_row_lost; sample_row_world] empty_dir =
    run 2%nat [sample_row_world] st_before.
Proof.
  intros run st_before.
  assert (H : row_body string sample_slice sample_export sample_log_fault
                "STT_TT_D002" sample_wave 1 sample_row_lost st_before =
              (Raised ValueError, st_before)) by reflexivity.
  split; [exact H |].
  apply (failing_row_is_skipped_alone string sample_slice sample_export
           sample_log_fault "STT_TT_D002" sample_wave
           [sample_row_hello] [sample_row_world] sample_row_lost
           ValueError empty_dir st_before H).
Defined.

(** The log of a run over the three sample rows, the second of which
    raises in [int(...)]: its number is left out. *)
Example sample_run_log :
  log (snd (Stt_Audio_split_audio.split_audio_file sample_slice sample_export
              sample_log_fault
              (sample_input [sample_row_hello; sample_row_lost; sample_row_world])
              empty_dir)) =
  "Segment Log" +:+ nl +:+
  "===========" +:+ nl +:+ nl +:+
  "Segment 0001" +:+ nl +:+
  "Time: 0.00s - 0.00s (duration: 0.00s)" +:+ nl +:+
  "Filename: STT_TT_D002_0001_0_to_3.wav" +:+ nl +:+
  "Transcription: hello" +:+ nl +:+
  dashes +:+ nl +:+ nl +:+
  "Segment 0003" +:+ nl +:+
  "Time: 0.01s - 0.01s (duration: 0.00s)" +:+ nl +:+
  "Filename: STT_TT_D002_0003_5_to_9.wav" +:+ nl +:+
  "Transcription: world" +:+ nl +:+
  dashes +:+ nl +:+ nl.
Proof. vm_compute. reflexivity. Qed.

Example sample_run_files :
  map_to_list
    (files (snd (Stt_Audio_split_audio.split_audio_file sample_slice sample_export
                   sample_log_fault
                   (sample_input [sample_row_hello; sample_row_lost; sample_row_world])
                   empty_dir))) ≡ₚ
  [("STT_TT_D002_0001_0_to_3.wav", "abc"); ("STT_TT_D002_0003_5_to_9.wav", "fghi")].
Proof. vm_compute. apply perm_swap. Qed.

(** ** The texts of the time line *)

Lemma iter_pos_preserves {A : Type} (f : A -> A) (P : A -> Prop) :
  (forall x, P x -> P (f x)) ->
  forall (n : positive) (x : A), P x -> P (SpecFloat.iter_pos f n x).
Proof.
  intros Hf. induction n as [n IH|n IH|]; intros x Hx; simpl; auto.
Qed.

Lemma shr_1_nonneg (mrs : shr_record) : 0 <= shr_m mrs -> 0 <= shr_m (shr_1 mrs).
Proof.
  destruct mrs as [m r s]. simpl.
  destruct m as [|[p|p|]|[p|p|]]; simpl; lia.
Qed.

Lemma shr_fexp_nonneg (m e : Z) (l : location) :
  0 <= m -> 0 <= shr_m (fst (shr_fexp 53 1024 m e l)).
Proof.
  intros Hm. unfold shr_fexp, shr.
  assert (H0 : 0 <= shr_m (shr_record_of_loc m l)) by (by destruct l as [|[]]).
  destruct (fexp 53 1024 (Zdigits2 m + e) - e) as [|p|p]; simpl; try done.
  by apply (iter_pos_preserves shr_1 (fun x => 0 <= shr_m x) shr_1_nonneg).
Qed.

Lemma round_nearest_even_nonneg (m : Z) (l : location) :
  0 <= m -> 0 <= round_nearest_even m l.
Proof.
  intros Hm. destruct l as [|[]]; simpl; try lia. destruct (Z.even m); lia.
Qed.

Lemma b64_round_positive (q e : Z) (l : location) :
  0 <= q -> positive_sign (b64_round false q e l).
Proof.
  intros Hq. unfold b64_round, binary_round_aux.
  pose proof (shr_fexp_nonneg q e l Hq) as H1.
  destruct (shr_fexp 53 1024 q e l) as [mrs' e']. simpl in H1.
  pose proof (shr_fexp_nonneg _ e' loc_Exact
                (round_nearest_even_nonneg _ (loc_of_shr_record mrs') H1)) as H2.
  destruct (shr_fexp 53 1024 _ e' loc_Exact) as [mrs'' e'']. simpl in H2.
  destruct (shr_m mrs'') as [|m|m]; simpl; [done | | lia].
  by destruct (e'' <=? 1024 - 53).
Qed.

Lemma b64_of_ratio_positive (n d : positive) :
  positive_sign (b64_of_ratio false n d).
Proof.
  unfold b64_of_ratio, SFdiv_core_binary.
  set (m' := match _ - _ with Z0 => _ | Zpos _ => _ | Zneg _ => _ end).
  assert (Hm : 0 <= m').
  { unfold m'. destruct (_ - _) as [|s|s]; try lia. apply Z.shiftl_nonneg. lia. }
  destruct (Z.div_eucl m' (Z.pos d)) as [q r] eqn:E.
  apply b64_round_positive.
  assert (Hq : q = m' / Z.pos d) by (unfold Z.div; by rewrite E).
  rewrite Hq. apply Z.div_pos; lia.
Qed.

Lemma is_digit_digit_char (k : Z) : 0 <= k < 10 -> is_digit (digit_char k) = true.
Proof.
  intros Hk. unfold is_digit, digit_char, code.
  rewrite N_ascii_embedding by lia.
  apply andb_true_intro. split; apply N.leb_le; lia.
Qed.

Lemma digit_is_digit_or_dot (s : string) :
  string_forallb is_digit s = true -> string_forallb is_digit_or_dot s = true.
Proof.
  induction s as [|c s IH]; simpl; [done |].
  intros H. apply andb_prop in H as [Hc Hs].
  unfold is_digit_or_dot. rewrite Hc. simpl. by apply IH.
Qed.

Lemma fixed2_class (h : Z) :
  fixed2 false h <> "" /\ string_forallb is_digit_or_dot (fixed2 false h) = true.
Proof.
  unfold fixed2. split.
  - by destruct (dec _).
  - rewrite string_forallb_append, (digit_is_digit_or_dot _ (dec_digits _)). simpl.
    assert (H1 : is_digit_or_dot (digit_char ((h / 10) mod 10)) = true).
    { unfold is_digit_or_dot. rewrite is_digit_digit_char; [done |].
      apply Z.mod_pos_bound. lia. }
    assert (H2 : is_digit_or_dot (digit_char (h mod 10)) = true).
    { unfold is_digit_or_dot. rewrite is_digit_digit_char; [done |].
      apply Z.mod_pos_bound. lia. }
    by rewrite H1, H2.
Qed.

(** The seconds of a time that is not negative are rendered with digits
    and a full stop only. *)
Lemma fmt_seconds_class (ms : Z) (s : string) :
  0 <= ms -> fmt_seconds ms = Returned s ->
  s <> "" /\ string_forallb is_digit_or_dot s = true.
Proof.
  intros Hms. unfold fmt_seconds, true_div.
  destruct ms as [|p|p]; [| | lia].
  - intros H. change (Returned (fixed2 false 0) = Returned s) in H.
    injection H as <-. apply (fixed2_class 0).
  - pose proof (b64_of_ratio_positive p 1000) as Hp.
    destruct (b64_of_ratio false p 1000) as [sg|sg| |sg m e]; simpl in Hp;
      try done; subst sg; intros H.
    + change (Returned (fixed2 false 0) = Returned s) in H.
      injection H as <-. apply (fixed2_class 0).
    + change (Returned (fixed2 false (hundredths m e)) = Returned s) in H.
      injection H as <-. apply (fixed2_class (hundredths m e)).
Qed.

Lemma time_text_inv (start stop dur : Z) (times : string) :
  time_text start stop dur = Returned times ->
  exists a b d,
    fmt_seconds start = Returned a /\ fmt_seconds stop = Returned b /\
    fmt_seconds dur = Returned d /\
    times = a +:+ "s - " +:+ b +:+ "s (duration: " +:+ d +:+ "s)".
Proof.
  unfold time_text.
  destruct (fmt_seconds start) as [a|]; simpl; [|done].
  destruct (fmt_seconds stop) as [b|]; simpl; [|done].
  destruct (fmt_seconds dur) as [d|]; simpl; [|done].
  intros [= <-]. by exists a, b, d.
Qed.

(** ** The matcher *)

Lemma match_here_lits (w s : string) (p : regex) :
  match_here (lits w ++ p) (w +:+ s) = match_here p s.
Proof.
  induction w as [|c w IH]; simpl; [done |]. by rewrite Ascii.eqb_refl.
Qed.

(** A group takes a whole run of its class when the text after the run
    does not go on in the class and the rest of the pattern matches
    there. *)
Lemma match_plus_greedy {R : Type} (k : string -> option R) (cls : ascii -> bool)
    (cap s : string) (r : R) :
  cap <> "" -> string_forallb cls cap = true ->
  match s with String c _ => cls c = false | EmptyString => True end ->
  k s = Some r ->
  match_plus k cls (cap +:+ s) = Some (cap, r).
Proof.
  intros Hne Hcls Hs Hk. induction cap as [|c cap IH]; [done |].
  simpl in Hcls. apply andb_prop in Hcls as [Hc Hcap].
  simpl. rewrite Hc.
  destruct cap as [|c' cap'].
  - simpl. assert (Hnone : match_plus k cls s = None).
    { destruct s as [|c0 s0]; simpl; [done | by rewrite Hs]. }
    by rewrite Hnone, Hk.
  - by rewrite IH.
Qed.

Lemma match_here_group (cls : ascii -> bool) (p : regex) (cap s : string)
    (caps : list string) (rest : string) :
  cap <> "" -> string_forallb cls cap = true ->
  match s with String c _ => cls c = false | EmptyString => True end ->
  match_here p s = Some (caps, rest) ->
  match_here ([Group cls] ++ p) (cap +:+ s) = Some (cap :: caps, rest).
Proof.
  intros Hne Hcls Hs Hk. simpl.
  by rewrite (match_plus_greedy (match_here p) cls cap s (caps, rest)).
Qed.

Lemma match_plus_shorter (k : string -> option (list string * string))
    (cls : ascii -> bool) :
  (forall s r, k s = Some r -> (String.length (snd r) <= String.length s)%nat) ->
  forall s cap r,
    match_plus k cls s = Some (cap, r) ->
    (String.length (snd r) < String.length s)%nat.
Proof.
  intros Hk. induction s as [|c s IH]; intros cap r; simpl; [done |].
  destruct (cls c); [|done].
  destruct (match_plus k cls s) as [[cap' r']|] eqn:E.
  - intros [= _ <-]. specialize (IH cap' r' eq_refl). lia.
  - destruct (k s) as [r'|] eqn:Ek; [|done].
    intros [= _ <-]. specialize (Hk s r' Ek). lia.
Qed.

Lemma match_here_le (p : regex) :
  forall s caps rest,
    match_here p s = Some (caps, rest) ->
    (String.length rest <= String.length s)%nat.
Proof.
  induction p as [|[c|cls] p IH]; intros s caps rest; simpl.
  - by intros [= _ <-].
  - destruct s as [|c' s']; [done |]. destruct (Ascii.eqb c' c); [|done].
    intros H. apply IH in H. simpl. lia.
  - destruct (match_plus (match_here p) cls s) as [[cap [caps' rest']]|] eqn:E; [|done].
    intros [= _ <-].
    apply match_plus_shorter in E; [simpl in E; lia |].
    intros s0 [caps0 rest0] H0. simpl. by apply (IH s0 caps0).
Qed.

(** A pattern with at least one item consumes at least one character. *)
Lemma match_here_lt (i : item) (p : regex) (s : string) (caps : list string)
    (rest : string) :
  match_here (i :: p) s = Some (caps, rest) ->
  (String.length rest < String.length s)%nat.
Proof.
  destruct i as [c|cls]; simpl.
  - destruct s as [|c' s']; [done |]. destruct (Ascii.eqb c' c); [|done].
    intros H. apply match_here_le in H. simpl. lia.
  - destruct (match_plus (match_here p) cls s) as [[cap [caps' rest']]|] eqn:E; [|done].
    intros [= _ <-].
    apply match_plus_shorter in E; [by simpl in E |].
    intros s0 [caps0 rest0] H0. simpl. by apply (match_here_le p s0 caps0).
Qed.

Lemma findall_fuel_enough (p : regex) :
  forall (f1 f2 : nat) (s : string),
    (String.length s < f1)%nat -> (String.length s < f2)%nat ->
    findall_fuel p f1 s = findall_fuel p f2 s.
Proof.
  induction f1 as [|f1 IH]; intros f2 s H1 H2; [lia |].
  destruct f2 as [|f2]; [lia |]. simpl.
  destruct (match_here p s) as [[caps rest]|].
  - f_equal. destruct (Nat.ltb_spec (String.length rest) (String.length s)).
    + apply IH; lia.
    + destruct s as [|c s']; [done |]. simpl in *. apply IH; lia.
  - destruct s as [|c s']; [done |]. simpl in *. apply IH; lia.
Qed.

Lemma findall_hit (i : item) (p : regex) (s : string) (caps : list string)
    (rest : string) :
  match_here (i :: p) s = Some (caps, rest) ->
  findall (i :: p) s = caps :: findall (i :: p) rest.
Proof.
  intros H. pose proof (match_here_lt i p s caps rest H) as Hlt.
  unfold findall at 1. cbn [findall_fuel]. rewrite H.
  apply Nat.ltb_lt in Hlt as Hb. rewrite Hb. f_equal.
  apply findall_fuel_enough; lia.
Qed.

Lemma findall_miss (p : regex) (c : ascii) (s : string) :
  match_here p (String c s) = None ->
  findall p (String c s) = findall p s.
Proof.
  intros H. unfold findall at 1. cbn [findall_fuel]. rewrite H.
  apply findall_fuel_enough; simpl; lia.
Qed.

Lemma findall_end (p : regex) :
  match_here p "" = None -> findall p "" = [].
Proof. intros H. unfold findall. simpl. by rewrite H. Qed.

(** ** Names without slash or line feed *)

Lemma string_forallb_impl (p q : ascii -> bool) (s : string) :
  (forall c, p c = true -> q c = true) ->
  string_forallb p s = true -> string_forallb q s = true.
Proof.
  intros Hpq. induction s as [|c s IH]; simpl; [done |].
  intros H. apply andb_prop in H as [Hc Hs]. by rewrite (Hpq c Hc), IH.
Qed.

Lemma digit_plain (c : ascii) : is_digit c = true -> is_plain c = true.
Proof.
  destruct c as [[] [] [] [] [] [] [] []]; vm_compute; done.
Qed.

Lemma plain_not_newline (c : ascii) : is_plain c = true -> is_not_newline c = true.
Proof.
  unfold is_plain. intros H. apply andb_prop in H as [H _].
  by apply andb_prop in H as [_ H].
Qed.

Lemma plain_not_cr (c : ascii) : is_plain c = true -> is_not_cr c = true.
Proof. unfold is_plain. intros H. by apply andb_prop in H as [_ H]. Qed.

Lemma digit_or_dot_not_cr (c : ascii) :
  is_digit_or_dot c = true -> is_not_cr c = true.
Proof.
  destruct c as [[] [] [] [] [] [] [] []]; vm_compute; done.
Qed.

(** A text without carriage return is read as it was written. *)
Lemma universal_newlines_id (s : string) :
  string_forallb is_not_cr s = true -> universal_newlines s = s.
Proof.
  induction s as [|c s IH]; simpl; [done |].
  intros H. apply andb_prop in H as [Hc Hs].
  unfold is_not_cr in Hc. destruct (Ascii.eqb c CR); [done |].
  by rewrite (IH Hs).
Qed.

Lemma str_int_plain (z : Z) : string_forallb is_plain (str_int z) = true.
Proof.
  assert (H : string_forallb is_plain (dec (Z.abs_N z)) = true).
  { apply (string_forallb_impl is_digit); [apply digit_plain | apply dec_digits]. }
  unfold str_int. destruct (z <? 0); simpl; by rewrite ?H.
Qed.

Lemma segment_name_plain (prefix : string) (index : nat) (start stop : Z) :
  string_forallb is_plain prefix = true ->
  string_forallb is_plain (segment_name prefix index start stop) = true.
Proof.
  intros Hp. unfold segment_name, format_time.
  rewrite !string_forallb_append, Hp, !str_int_plain.
  rewrite (string_forallb_impl is_digit is_plain _ digit_plain (fmt_04d_digits _)).
  done.
Qed.

Lemma segment_name_nonempty (prefix : string) (index : nat) (start stop : Z) :
  segment_name prefix index start stop <> "".
Proof. unfold segment_name. by destruct prefix. Qed.

Lemma split_on_no_separator (sep : ascii) (s : string) :
  string_forallb (fun c => negb (Ascii.eqb c sep)) s = true ->
  split_on sep s = [s].
Proof.
  induction s as [|c s IH]; simpl; [done |].
  intros H. apply andb_prop in H as [Hc Hs].
  destruct (Ascii.eqb c sep); [done |]. by rewrite (IH Hs).
Qed.

Lemma path_name_plain (s : string) :
  string_forallb is_plain s = true -> path_name s = s.
Proof.
  intros H. unfold path_name. rewrite split_on_no_separator; [done |].
  apply (string_forallb_impl is_plain); [| done].
  intros c Hc. unfold is_plain in Hc. apply andb_prop in Hc as [Hc _].
  by apply andb_prop in Hc as [Hc _].
Qed.

(** ** The Parser on the log of the splitter *)

Section roundtrip.

Local Abbreviation PATTERN := generate_csv_file.SEGMENT_PATTERN.
Local Abbreviation extract := generate_csv_file.extract_segments.

(** One literal stretch of the pattern and the group after it. *)
Ltac through_group :=
  rewrite match_here_lits; apply match_here_group; [done | done | done |].

Lemma match_block (n a b d name tr rest : string) :
  n <> "" -> string_forallb is_digit n = true ->
  a <> "" -> string_forallb is_digit_or_dot a = true ->
  b <> "" -> string_forallb is_digit_or_dot b = true ->
  d <> "" -> string_forallb is_digit_or_dot d = true ->
  name <> "" -> string_forallb is_not_newline name = true ->
  tr <> "" -> string_forallb is_not_newline tr = true ->
  match rest with String c _ => is_not_newline c = false | EmptyString => True end ->
  match_here PATTERN
    ("Segment " +:+ n +:+ (nl +:+ "Time: ") +:+ a +:+ "s - " +:+ b +:+
     "s (duration: " +:+ d +:+ ("s)" +:+ nl +:+ "Filename: ") +:+ name +:+
     (nl +:+ "Transcription: ") +:+ tr +:+ rest) =
  Some ([n; a; b; d; name; tr], rest).
Proof.
  intros Hn1 Hn2 Ha1 Ha2 Hb1 Hb2 Hd1 Hd2 Hf1 Hf2 Ht1 Ht2 Hrest.
  unfold generate_csv_file.SEGMENT_PATTERN.
  do 5 through_group.
  rewrite match_here_lits.
  by apply (match_here_group is_not_newline [] tr rest [] rest).
Qed.

Lemma log_block_flat (index : nat) (a b d name tr rest : string) :
  log_block index (a +:+ "s - " +:+ b +:+ "s (duration: " +:+ d +:+ "s)") name tr
    +:+ rest =
  "Segment " +:+ fmt_04d (N.of_nat index + 1) +:+ (nl +:+ "Time: ") +:+ a +:+
  "s - " +:+ b +:+ "s (duration: " +:+ d +:+ ("s)" +:+ nl +:+ "Filename: ") +:+
  name +:+ (nl +:+ "Transcription: ") +:+ tr +:+ (block_end +:+ rest).
Proof.
  unfold log_block. generalize (fmt_04d (N.of_nat index + 1)). intros n.
  rewrite !append_assoc. reflexivity.
Qed.

Lemma match_here_not_S (c : ascii) (s : string) :
  not_S c = true -> match_here PATTERN (String c s) = None.
Proof.
  unfold not_S. intros H.
  change PATTERN with (Lit "S" :: tl PATTERN).
  cbn [match_here]. by destruct (Ascii.eqb c "S").
Qed.

Lemma findall_skip (junk s : string) :
  string_forallb not_S junk = true ->
  findall PATTERN (junk +:+ s) = findall PATTERN s.
Proof.
  induction junk as [|c junk IH]; simpl; [done |].
  intros H. apply andb_prop in H as [Hc Hj].
  rewrite findall_miss; [by apply IH | by apply match_here_not_S].
Qed.

Lemma findall_header (s : string) :
  findall PATTERN (log_header +:+ s) = findall PATTERN s.
Proof.
  change (log_header +:+ s) with (String "S" (header_tail +:+ s)).
  rewrite findall_miss; [by apply findall_skip | reflexivity].
Qed.

Lemma findall_block (index : nat) (a b d name tr rest : string) :
  a <> "" -> string_forallb is_digit_or_dot a = true ->
  b <> "" -> string_forallb is_digit_or_dot b = true ->
  d <> "" -> string_forallb is_digit_or_dot d = true ->
  name <> "" -> string_forallb is_not_newline name = true ->
  tr <> "" -> string_forallb is_not_newline tr = true ->
  findall PATTERN
    (log_block index (a +:+ "s - " +:+ b +:+ "s (duration: " +:+ d +:+ "s)") name tr
     +:+ rest) =
  [fmt_04d (N.of_nat index + 1); a; b; d; name; tr] :: findall PATTERN rest.
Proof.
  intros Ha1 Ha2 Hb1 Hb2 Hd1 Hd2 Hf1 Hf2 Ht1 Ht2.
  rewrite log_block_flat.
  assert (Hm := match_block (fmt_04d (N.of_nat index + 1)) a b d name tr
                  (block_end +:+ rest) (fmt_04d_nonempty _) (fmt_04d_digits _)
                  Ha1 Ha2 Hb1 Hb2 Hd1 Hd2 Hf1 Hf2 Ht1 Ht2 eq_refl).
  change PATTERN with (Lit "S" :: tl PATTERN) in Hm |- *.
  rewrite (findall_hit _ _ _ _ _ Hm).
  apply (f_equal (cons _)).
  exact (findall_skip block_end rest eq_refl).
Qed.

End roundtrip.

Section roundtrip_run.

Variable audio : Type.
Variable slice : audio -> Z -> Z -> outcome audio.
Variable export : audio -> string -> outcome string.
Variable log_fault : nat -> option nat.

Local Abbreviation extract := generate_csv_file.extract_segments.
Local Abbreviation valid_from := (rows_valid audio slice export log_fault).
Local Abbreviation parts_from := (log_parts audio slice export log_fault).

Lemma printable_row_inv (row : timing_row) :
  printable_row row = true ->
  exists s e d,
    start_time row = CInt s /\ end_time row = CInt e /\ duration row = CInt d /\
    0 <= s /\ 0 <= e /\ 0 <= d /\
    transcription row <> "" /\
    string_forallb is_not_newline (transcription row) = true /\
    string_forallb is_not_cr (transcription row) = true.
Proof.
  unfold printable_row. intros H.
  apply andb_prop in H as [H Hcr].
  apply andb_prop in H as [H Hnl]. apply andb_prop in H as [Hn Hne].
  destruct (start_time row) as [s|]; [|done].
  destruct (end_time row) as [e|]; [|done].
  destruct (duration row) as [d|]; [|done].
  apply andb_prop in Hn as [Hn Hd]. apply andb_prop in Hn as [Hs He].
  exists s, e, d. repeat split; try done; try lia.
  intros E. rewrite E in Hne. done.
Qed.

Lemma extract_log_parts (prefix : string) (a : audio) (rows : list timing_row) :
  string_forallb is_plain prefix = true ->
  forall index : nat,
    valid_from prefix a index rows = true ->
    forallb printable_row rows = true ->
    length (extract (parts_from prefix a index rows)) = length rows /\
    forall (j : nat) (row : timing_row),
      rows !! j = Some row ->
      exists seg start stop,
        extract (parts_from prefix a index rows) !! j = Some seg /\
        start_time row = CInt start /\ end_time row = CInt stop /\
        generate_csv_file.segment_id seg = fmt_04d (N.of_nat (index + j) + 1) /\
        generate_csv_file.filename seg = segment_name prefix (index + j) start stop /\
        generate_csv_file.transcription seg = transcription row.
Proof.
  intros Hprefix. induction rows as [|row rows IH]; intros index Hv Hp.
  - split; [reflexivity | done].
  - simpl in Hv, Hp.
    apply andb_prop in Hv as [Hrow Hrows]. apply andb_prop in Hp as [Hprow Hprows].
    destruct (IH (S index) Hrows Hprows) as [IHlen IHrows].
    apply (row_valid_inv audio slice export log_fault) in Hrow
      as (name & bytes & times & Ho & _ & Hpart).
    apply row_output_inv in Ho
      as (start & stop & dur & segment & H1 & H2 & H3 & Htimes & _ & Hname & _).
    apply printable_row_inv in Hprow
      as (s & e & d & E1 & E2 & E3 & Hs & He & Hd & Htr1 & Htr2 & Htr3).
    rewrite H1 in E1. rewrite H2 in E2. rewrite H3 in E3.
    injection E1 as <-. injection E2 as <-. injection E3 as <-.
    apply time_text_inv in Htimes as (ta & tb & td & Fa & Fb & Fd & ->).
    apply fmt_seconds_class in Fa as [Fa1 Fa2]; [| done].
    apply fmt_seconds_class in Fb as [Fb1 Fb2]; [| done].
    apply fmt_seconds_class in Fd as [Fd1 Fd2]; [| done].
    assert (Hplain := segment_name_plain prefix index start stop Hprefix).
    rewrite <- Hname in Hplain.
    assert (Hnl : string_forallb is_not_newline name = true).
    { by apply (string_forallb_impl is_plain is_not_newline _ plain_not_newline). }
    assert (Hne : name <> "").
    { rewrite Hname. apply segment_name_nonempty. }
    assert (Hex : extract (parts_from prefix a index (row :: rows)) =
              {| generate_csv_file.segment_id := fmt_04d (N.of_nat index + 1);
                 generate_csv_file.start_time := ta;
                 generate_csv_file.end_time := tb;
                 generate_csv_file.duration := td;
                 generate_csv_file.filename := name;
                 generate_csv_file.transcription := transcription row |}
              :: extract (parts_from prefix a (S index) rows)).
    { unfold generate_csv_file.extract_segments. cbn [log_parts].
      rewrite Hpart, (path_name_plain name Hplain).
      by rewrite findall_block. }
    rewrite Hex. split; [simpl; by rewrite IHlen |].
    intros [|j] r Hr; simpl in Hr.
    + injection Hr as <-. eexists _, start, stop. rewrite Nat.add_0_r.
      repeat split; done.
    + destruct (IHrows j r Hr) as (seg & s' & e' & G1 & G2 & G3 & G4 & G5 & G6).
      exists seg, s', e'. rewrite Nat.add_succ_r. repeat split; done.
Qed.

Lemma log_block_not_cr (index : nat) (a b d name tr : string) :
  string_forallb is_digit_or_dot a = true ->
  string_forallb is_digit_or_dot b = true ->
  string_forallb is_digit_or_dot d = true ->
  string_forallb is_plain name = true ->
  string_forallb is_not_cr tr = true ->
  string_forallb is_not_cr
    (log_block index (a +:+ "s - " +:+ b +:+ "s (duration: " +:+ d +:+ "s)") name tr)
    = true.
Proof.
  intros Ha Hb Hd Hname Htr. unfold log_block.
  rewrite !string_forallb_append.
  rewrite (string_forallb_impl _ _ _ digit_or_dot_not_cr
             (digit_is_digit_or_dot _ (fmt_04d_digits (N.of_nat index + 1)))).
  rewrite (string_forallb_impl _ _ _ digit_or_dot_not_cr Ha).
  rewrite (string_forallb_impl _ _ _ digit_or_dot_not_cr Hb).
  rewrite (string_forallb_impl _ _ _ digit_or_dot_not_cr Hd).
  rewrite (string_forallb_impl _ _ _ plain_not_cr Hname), Htr.
  reflexivity.
Qed.

(** The log of a run over such rows holds no carriage return. *)
Lemma log_parts_not_cr (prefix : string) (a : audio) (rows : list timing_row) :
  string_forallb is_plain prefix = true ->
  forall index : nat,
    valid_from prefix a index rows = true ->
    forallb printable_row rows = true ->
    string_forallb is_not_cr (parts_from prefix a index rows) = true.
Proof.
  intros Hprefix. induction rows as [|row rows IH]; intros index Hv Hp; [done |].
  simpl in Hv, Hp.
  apply andb_prop in Hv as [Hrow Hrows]. apply andb_prop in Hp as [Hprow Hprows].
  cbn [log_parts]. rewrite string_forallb_append, (IH (S index) Hrows Hprows).
  apply (row_valid_inv audio slice export log_fault) in Hrow
    as (name & bytes & times & Ho & _ & Hpart).
  apply row_output_inv in Ho
    as (start & stop & dur & segment & H1 & H2 & H3 & Htimes & _ & Hname & _).
  apply printable_row_inv in Hprow
    as (s & e & d & E1 & E2 & E3 & Hs & He & Hd & _ & _ & Htr).
  rewrite H1 in E1. rewrite H2 in E2. rewrite H3 in E3.
  injection E1 as <-. injection E2 as <-. injection E3 as <-.
  apply time_text_inv in Htimes as (ta & tb & td & Fa & Fb & Fd & ->).
  apply fmt_seconds_class in Fa as [_ Fa]; [| done].
  apply fmt_seconds_class in Fb as [_ Fb]; [| done].
  apply fmt_seconds_class in Fd as [_ Fd]; [| done].
  assert (Hplain := segment_name_plain prefix index start stop Hprefix).
  rewrite <- Hname in Hplain.
  rewrite Hpart, (path_name_plain name Hplain).
  by rewrite log_block_not_cr.
Qed.

(** C1, amended: when the splitter has run over valid rows whose times are
    not negative and whose transcriptions are not empty and hold no line
    feed and no carriage return, and a file holds the log of that run, the
    Parser reads the log as it was written and its extraction recovers as
    many records as rows, each with the file name the splitter wrote and
    with the transcription of its row, unchanged and so equal after
    trimming. *)
Theorem roundtrip_for_printable_rows (inp : split_input audio)
    (rows : list timing_row) (a : audio) (st : out_dir)
    (fs : filesystem) (log_file_path : string) :
  mkdir audio inp = Returned tt ->
  audio_exists audio inp = true -> csv_exists audio inp = true ->
  read_csv audio inp = Returned rows -> from_mp3 audio inp = Returned a ->
  header_write audio inp = Written ->
  valid_from "STT_TT_D002" a 0 rows = true ->
  forallb printable_row rows = true ->
  let log_text :=
    log (snd (Stt_Audio_split_audio.split_audio_file slice export log_fault inp st)) in
  content fs !! log_file_path = Some log_text ->
  generate_csv_file.read_log_file fs log_file_path = Returned log_text /\
  recovers "STT_TT_D002" rows log_text /\
  forall (i : nat) (row : timing_row),
    rows !! i = Some row ->
    exists seg start stop,
      extract log_text !! i = Some seg /\
      start_time row = CInt start /\ end_time row = CInt stop /\
      generate_csv_file.segment_id seg = fmt_04d (N.of_nat i + 1) /\
      generate_csv_file.filename seg = segment_name "STT_TT_D002" i start stop /\
      generate_csv_file.transcription seg = transcription row.
Proof.
  intros Hk Ha Hc Hr Hm Hw Hv Hp log_text Hfile.
  assert (Hlog : log_text = log_header +:+ parts_from "STT_TT_D002" a 0 rows).
  { unfold log_text, Stt_Audio_split_audio.split_audio_file.
    by rewrite (split_with_prefix_closed audio slice export log_fault
                  "STT_TT_D002" inp rows a st Hk Ha Hc Hr Hm Hw). }
  assert (Hread : generate_csv_file.read_log_file fs log_file_path =
                  Returned log_text).
  { unfold generate_csv_file.read_log_file. rewrite Hfile.
    rewrite universal_newlines_id; [done |].
    rewrite Hlog, string_forallb_append.
    by rewrite (log_parts_not_cr "STT_TT_D002" a rows eq_refl 0 Hv Hp). }
  split; [exact Hread |].
  assert (Hex : extract log_text = extract (parts_from "STT_TT_D002" a 0 rows)).
  { rewrite Hlog. unfold generate_csv_file.extract_segments.
    by rewrite findall_header. }
  destruct (extract_log_parts "STT_TT_D002" a rows eq_refl 0 Hv Hp) as [Hlen Hrows].
  unfold recovers. rewrite Hex. split; [split; [exact Hlen |] |].
  - intros i row Hi.
    destruct (Hrows i row Hi) as (seg & start & stop & G1 & G2 & G3 & _ & G5 & G6).
    exists seg, start, stop. simpl in G5. repeat split; try done.
    + rewrite G5. symmetry. apply path_name_plain.
      by apply segment_name_plain.
    + by rewrite G6.
  - intros i row Hi.
    destruct (Hrows i row Hi) as (seg & start & stop & G1 & G2 & G3 & G4 & G5 & G6).
    exists seg, start, stop. repeat split; done.
Qed.

End roundtrip_run.

(** C1, as worded: a transcription of two lines, from a quoted field of the
    timing table, is a valid row; its block carries the second line on a
    line of its own, and the Parser captures the first line only. *)
Lemma roundtrip_fails_for_transcription_with_line_feed :
  ~ roundtrip_for_all_valid_rows.
Proof.
  intros H.
  destruct (H string sample_slice sample_export sample_log_fault
              (sample_input [sample_row_two_lines]) [sample_row_two_lines]
              sample_wave empty_dir eq_refl eq_refl eq_refl eq_refl eq_refl
              eq_refl eq_refl)
    as [_ Hrows].
  destruct (Hrows 0%nat sample_row_two_lines eq_refl)
    as (seg & start & stop & Hseg & _ & _ & _ & Hstrip).
  vm_compute in Hseg. injection Hseg as <-.
  vm_compute in Hstrip. discriminate Hstrip.
Qed.

(** The other conditions of the amended round trip are needed as well: a
    negative duration is written as [-0.00], which the pattern does not
    match, and after an empty transcription the pattern finds no character
    to capture; both rows are valid for the splitter, and the Parser
    recovers no record.  A carriage return in a transcription is written
    as it is and read back as a line feed: the pattern applied to the text
    written captures the whole transcription, and applied to the text the
    Parser reads, only what stands before the carriage return. *)
Example negative_duration_is_not_recovered :
  rows_valid string sample_slice sample_export sample_log_fault
    "STT_TT_D002" sample_wave 0 [sample_row_negative_duration] = true /\
  generate_csv_file.extract_segments
    (log (snd (Stt_Audio_split_audio.split_audio_file sample_slice sample_export
                 sample_log_fault (sample_input [sample_row_negative_duration])
                 empty_dir))) = [].
Proof. split; vm_compute; reflexivity. Qed.

Example empty_transcription_is_not_recovered :
  rows_valid string sample_slice sample_export sample_log_fault
    "STT_TT_D002" sample_wave 0 [sample_row_no_text] = true /\
  generate_csv_file.extract_segments
    (log (snd (Stt_Audio_split_audio.split_audio_file sample_slice sample_export
                 sample_log_fault (sample_input [sample_row_no_text])
                 empty_dir))) = [].
Proof. split; vm_compute; reflexivity. Qed.

Example carriage_return_is_not_recovered :
  let written :=
    log (snd (Stt_Audio_split_audio.split_audio_file sample_slice sample_export
                sample_log_fault (sample_input [sample_row_carriage_return])
                empty_dir)) in
  rows_valid string sample_slice sample_export sample_log_fault
    "STT_TT_D002" sample_wave 0 [sample_row_carriage_return] = true /\
  map generate_csv_file.transcription (generate_csv_file.extract_segments written) =
    [String "a" (String CR "b")] /\
  generate_csv_file.read_log_file (folder_holding "out" written)
    "out/segments_log.txt" = Returned (universal_newlines written) /\
  map generate_csv_file.transcription
    (generate_csv_file.extract_segments (universal_newlines written)) = ["a"].
Proof. repeat split; vm_compute; reflexivity. Qed.

Lemma roundtrip_for_printable_rows_witness :
  rows_valid string sample_slice sample_export sample_log_fault
    "STT_TT_D002" sample_wave 0 sample_valid_rows = true /\
  forallb printable_row sample_valid_rows = true /\
  generate_csv_file.read_log_file sample_log_folder "out/b/segments_log.txt" =
    Returned
      (log (snd (Stt_Audio_split_audio.split_audio_file sample_slice sample_export
                   sample_log_fault (sample_input sample_valid_rows) empty_dir))) /\
  recovers "STT_TT_D002" sample_valid_rows
    (log (snd (Stt_Audio_split_audio.split_audio_file sample_slice sample_export
                 sample_log_fault (sample_input sample_valid_rows) empty_dir))).
Proof.
  assert (Hv : rows_valid string sample_slice sample_export sample_log_fault
                 "STT_TT_D002" sample_wave 0 sample_valid_rows = true)
    by (vm_compute; reflexivity).
  assert (Hp : forallb printable_row sample_valid_rows = true)
    by (vm_compute; reflexivity).
  split; [exact Hv |]. split; [exact Hp |].
  destruct (roundtrip_for_printable_rows string sample_slice sample_export
              sample_log_fault (sample_input sample_valid_rows) sample_valid_rows
              sample_wave empty_dir sample_log_folder "out/b/segments_log.txt"
              eq_refl eq_refl eq_refl eq_refl eq_refl eq_refl Hv Hp eq_refl)
    as (Hread & Hrec & _).
  split; [exact Hread | exact Hrec].
Defined.

(** * More properties of the code *)

(** ** What the pattern can match *)

Lemma match_plus_inv {R : Type} (k : string -> option R) (cls : ascii -> bool) :
  forall (s cap : string) (r : R),
    match_plus k cls s = Some (cap, r) ->
    cap <> "" /\ string_forallb cls cap = true /\
    exists s', s = cap +:+ s' /\ k s' = Some r.
Proof.
  induction s as [|c s IH]; intros cap r; simpl; [done |].
  destruct (cls c) eqn:Hc; [|done].
  destruct (match_plus k cls s) as [[cap' r']|] eqn:E.
  - intros [= <- <-]. destruct (IH cap' r' eq_refl) as (_ & Hcls & s' & -> & Hk).
    split; [done |]. split; [simpl; by rewrite Hc |]. by exists s'.
  - destruct (k s) as [r'|] eqn:Ek; [|done].
    intros [= <- <-]. split; [done |]. split; [simpl; by rewrite Hc |].
    by exists s.
Qed.

Lemma match_here_lits_inv (w : string) (p : regex) :
  forall (s : string) (r : list string * string),
    match_here (lits w ++ p) s = Some r ->
    exists s', s = w +:+ s' /\ match_here p s' = Some r.
Proof.
  induction w as [|c w IH]; intros s r; simpl.
  - intros H. by exists s.
  - destruct s as [|c' s]; [done |].
    destruct (Ascii.eqb_spec c' c) as [->|]; [|done].
    intros H. destruct (IH s r H) as (s' & -> & Hs'). by exists s'.
Qed.

Lemma match_here_group_inv (cls : ascii -> bool) (p : regex) (s : string)
    (caps : list string) (rest : string) :
  match_here ([Group cls] ++ p) s = Some (caps, rest) ->
  exists cap caps' s',
    caps = cap :: caps' /\ cap <> "" /\ string_forallb cls cap = true /\
    s = cap +:+ s' /\ match_here p s' = Some (caps', rest).
Proof.
  simpl.
  destruct (match_plus (match_here p) cls s) as [[cap [caps' rest']]|] eqn:E; [|done].
  intros [= <- <-].
  apply match_plus_inv in E as (Hne & Hcls & s' & -> & Hk).
  by exists cap, caps', s'.
Qed.

(** One literal stretch and the group after it, read backwards. *)
Ltac back_through_group H cap Hne Hcls :=
  apply match_here_lits_inv in H as (? & -> & H);
  apply match_here_group_inv in H as (cap & ? & ? & -> & Hne & Hcls & -> & H).

Lemma match_segment_inv (s : string) (caps : list string) (rest : string) :
  match_here generate_csv_file.SEGMENT_PATTERN s = Some (caps, rest) ->
  exists seg,
    generate_csv_file.segment_of_captures caps = Some seg /\
    well_formed_segment seg /\
    s = matched_text seg +:+ rest.
Proof.
  unfold generate_csv_file.SEGMENT_PATTERN. intros H.
  back_through_group H n Hn1 Hn2.
  back_through_group H a Ha1 Ha2.
  back_through_group H b Hb1 Hb2.
  back_through_group H d Hd1 Hd2.
  back_through_group H f Hf1 Hf2.
  apply match_here_lits_inv in H as (? & -> & H).
  apply (match_here_group_inv is_not_newline []) in H
    as (t & ? & ? & -> & Ht1 & Ht2 & -> & H).
  simpl in H. injection H as <- <-.
  eexists. split; [reflexivity |]. split.
  - unfold well_formed_segment. simpl. repeat split; done.
  - unfold matched_text.
    cbn [generate_csv_file.segment_id generate_csv_file.start_time
         generate_csv_file.end_time generate_csv_file.duration
         generate_csv_file.filename generate_csv_file.transcription].
    rewrite !append_assoc. reflexivity.
Qed.

Lemma match_here_rest (p : regex) :
  forall (s : string) (caps : list string) (rest : string),
    match_here p s = Some (caps, rest) -> exists used, s = used +:+ rest.
Proof.
  induction p as [|[c|cls] p IH]; intros s caps rest; simpl.
  - intros [= _ <-]. by exists "".
  - destruct s as [|c' s']; [done |]. destruct (Ascii.eqb c' c); [|done].
    intros H. destruct (IH s' caps rest H) as (used & ->).
    by exists (String c' used).
  - destruct (match_plus (match_here p) cls s) as [[cap [caps' rest']]|] eqn:E; [|done].
    intros [= _ <-].
    apply match_plus_inv in E as (_ & _ & s' & -> & Hk).
    destruct (IH s' caps' rest' Hk) as (used & ->).
    exists (cap +:+ used). by rewrite append_assoc.
Qed.

Lemma findall_fuel_elem (p : regex) (fuel : nat) :
  forall (s : string) (caps : list string),
    In caps (findall_fuel p fuel s) ->
    exists before here rest,
      s = before +:+ here /\ match_here p here = Some (caps, rest).
Proof.
  induction fuel as [|fuel IH]; intros s caps; simpl; [done |].
  assert (Hskip : forall c s', s = String c s' ->
            In caps (findall_fuel p fuel s') ->
            exists before here rest,
              s = before +:+ here /\ match_here p here = Some (caps, rest)).
  { intros c s' -> Hin. destruct (IH s' caps Hin) as (bf & here & rest & -> & Hm).
    by exists (String c bf), here, rest. }
  destruct (match_here p s) as [[caps0 rest0]|] eqn:E.
  - intros [<-|Hin].
    + by exists "", s, rest0.
    + destruct (String.length rest0 <? String.length s)%nat.
      * destruct (IH rest0 caps Hin) as (bf & here & rest & Hs & Hm).
        destruct (match_here_rest p s caps0 rest0 E) as (used & ->).
        exists (used +:+ bf), here, rest. split; [|done].
        by rewrite Hs, append_assoc.
      * destruct s as [|c s']; [done |]. by apply (Hskip c s').
  - destruct s as [|c s']; [done |]. by apply (Hskip c s').
Qed.

Lemma extracted_segments_wf (log_content : string) (seg : generate_csv_file.segment) :
  In seg (generate_csv_file.extract_segments log_content) ->
  well_formed_segment seg.
Proof.
  unfold generate_csv_file.extract_segments, findall.
  rewrite <- list_elem_of_In, list_elem_of_omap.
  intros (caps & Hin & Hseg). rewrite list_elem_of_In in Hin.
  apply findall_fuel_elem in Hin as (before & here & rest & -> & Hm).
  apply match_segment_inv in Hm as (seg' & Hseg' & Hwf & _).
  rewrite Hseg in Hseg'. by injection Hseg' as <-.
Qed.

(** X1: whatever the text of a log, every record [extract_segments] returns
    has a sequence number of digits, three times of digits and full stops, a
    file name and a transcription without line feed, none of them empty, and
    the block made of these six texts occurs in the log. *)
Theorem extracted_segments_are_well_formed (log_content : string)
    (seg : generate_csv_file.segment) :
  In seg (generate_csv_file.extract_segments log_content) ->
  well_formed_segment seg /\ occurs_in (matched_text seg) log_content.
Proof.
  unfold generate_csv_file.extract_segments, findall.
  rewrite <- list_elem_of_In, list_elem_of_omap.
  intros (caps & Hin & Hseg). rewrite list_elem_of_In in Hin.
  apply findall_fuel_elem in Hin as (before & here & rest & -> & Hm).
  apply match_segment_inv in Hm as (seg' & Hseg' & Hwf & ->).
  rewrite Hseg in Hseg'. injection Hseg' as <-.
  split; [exact Hwf |]. by exists before, rest.
Qed.

Lemma extracted_segments_are_well_formed_witness :
  well_formed_segment
    {| generate_csv_file.segment_id := "0001";
       generate_csv_file.start_time := "0.00";
       generate_csv_file.end_time := "3.00";
       generate_csv_file.duration := "3.00";
       generate_csv_file.filename := "STT_TT_D001_0001_0_to_3000.wav";
       generate_csv_file.transcription := "hello" |}.
Proof.
  apply (extracted_segments_are_well_formed sample_log_a).
  vm_compute. by left.
Defined.

(** ** The rows of the manifest *)

Section manifest_rows.
Import generate_csv_file.

Lemma process_segments_from_returned (segments : list segment) :
  forall data rows,
    process_segments_from data segments = Returned rows ->
    exists rows',
      rows = data ++ rows' /\
      Forall2 (fun seg row => process_segment seg = Returned row) segments rows'.
Proof.
  induction segments as [|seg segments IH]; intros data rows; simpl.
  - intros [= <-]. exists []. by rewrite app_nil_r.
  - destruct (process_segment seg) as [row|e] eqn:E; simpl; [|done].
    intros H. destruct (IH _ _ H) as (rows' & -> & HF).
    exists (row :: rows'). split; [by rewrite <- app_assoc | by constructor].
Qed.

Lemma process_segments_from_all (segments : list segment) :
  forall data rows',
    Forall2 (fun seg row => process_segment seg = Returned row) segments rows' ->
    process_segments_from data segments = Returned (data ++ rows').
Proof.
  induction segments as [|seg segments IH]; intros data rows' HF;
    inversion HF as [|? row ? rest Hrow Hrest]; subst; simpl.
  - by rewrite app_nil_r.
  - rewrite Hrow. simpl. rewrite (IH _ rest Hrest). by rewrite <- app_assoc.
Qed.

Lemma process_segments_from_raised (segments : list segment) :
  forall data e,
    process_segments_from data segments = Raised e <->
    exists before seg after,
      segments = before ++ seg :: after /\
      Forall (fun s => exists row, process_segment s = Returned row) before /\
      process_segment seg = Raised e.
Proof.
  induction segments as [|seg segments IH]; intros data e; simpl.
  - split; [done |]. intros (before & s & after & H & _). by destruct before.
  - destruct (process_segment seg) as [row|e'] eqn:E; simpl.
    + rewrite IH. split.
      * intros (before & s & after & -> & HF & Hs).
        exists (seg :: before), s, after. repeat split; try done.
        constructor; [by exists row | done].
      * intros (before & s & after & Heq & HF & Hs).
        destruct before as [|b before]; simpl in Heq; injection Heq as <- ->.
        -- congruence.
        -- exists before, s, after. repeat split; try done. by inversion HF.
    + split.
      * intros [= <-]. exists [], seg, segments. repeat split; done.
      * intros (before & s & after & Heq & HF & Hs).
        destruct before as [|b before]; simpl in Heq; injection Heq as <- ->.
        -- congruence.
        -- inversion HF as [|? ? [row Hrow] _]. congruence.
Qed.

(** X2: [process_segments] gives one row per tuple, in the order of the
    tuples, exactly when the body of its loop succeeds on every tuple; it
    raises exactly when some tuple fails, and then with the exception of the
    first tuple that fails, whatever comes after it. *)
Theorem process_segments_all_or_first_failure (segments : list segment) :
  (forall rows,
     process_segments segments = Returned rows <->
     Forall2 (fun seg row => process_segment seg = Returned row) segments rows) /\
  (forall e,
     process_segments segments = Raised e <->
     exists before seg after,
       segments = before ++ seg :: after /\
       Forall (fun s => exists row, process_segment s = Returned row) before /\
       process_segment seg = Raised e).
Proof.
  unfold process_segments. split.
  - intros rows. split.
    + intros H. apply process_segments_from_returned in H as (rows' & -> & HF).
      done.
    + intros HF. by rewrite (process_segments_from_all segments [] rows HF).
  - intros e. apply process_segments_from_raised.
Qed.

End manifest_rows.

Lemma process_segments_all_or_first_failure_witness :
  generate_csv_file.process_segments
    [ {| generate_csv_file.segment_id := "0001";
         generate_csv_file.start_time := "0.00";
         generate_csv_file.end_time := "3.00";
         generate_csv_file.duration := "3.00";
         generate_csv_file.filename := "STT_TT_D001_0001_0_to_3000.wav";
         generate_csv_file.transcription := "hello" |};
      {| generate_csv_file.segment_id := "0002";
         generate_csv_file.start_time := "3.00";
         generate_csv_file.end_time := "4.00";
         generate_csv_file.duration := "1.0.0";
         generate_csv_file.filename := "STT_TT_D001_0002_3000_to_4000.wav";
         generate_csv_file.transcription := "lost" |};
      {| generate_csv_file.segment_id := "0003";
         generate_csv_file.start_time := "4.00";
         generate_csv_file.end_time := "5.00";
         generate_csv_file.duration := "1.00";
         generate_csv_file.filename := "plain.wav";
         generate_csv_file.transcription := "never reached" |} ] =
  Raised ValueError.
Proof.
  apply (proj2 (process_segments_all_or_first_failure _)).
  eexists [_], _, [_]. split; [reflexivity |]. split.
  - constructor; [| constructor]. eexists. vm_compute. reflexivity.
  - vm_compute. reflexivity.
Defined.

(** ** Trimming *)

Lemma lstrip_forallb (p : ascii -> bool) (s : string) :
  string_forallb p s = true -> string_forallb p (lstrip s) = true.
Proof.
  induction s as [|c s IH]; simpl; [done |].
  intros H. destruct (is_space c); [| by simpl].
  apply andb_prop in H as [_ H]. by apply IH.
Qed.

Lemma rstrip_forallb (p : ascii -> bool) (s : string) :
  string_forallb p s = true -> string_forallb p (rstrip s) = true.
Proof.
  induction s as [|c s IH]; simpl; [done |].
  intros H. apply andb_prop in H as [Hc Hs]. specialize (IH Hs).
  destruct (rstrip s) as [|c' r].
  - destruct (is_space c); simpl; [done | by rewrite Hc].
  - simpl in *. by rewrite Hc, IH.
Qed.

Lemma strip_forallb (p : ascii -> bool) (s : string) :
  string_forallb p s = true -> string_forallb p (strip s) = true.
Proof. intros H. unfold strip. by apply lstrip_forallb, rstrip_forallb. Qed.

Lemma rstrip_rstrip (s : string) : rstrip (rstrip s) = rstrip s.
Proof.
  induction s as [|c s IH]; simpl; [done |].
  destruct (rstrip s) as [|c' r] eqn:E.
  - destruct (is_space c) eqn:Hc; simpl; [done | by rewrite Hc].
  - simpl in *. by rewrite IH.
Qed.

Lemma lstrip_lstrip (s : string) : lstrip (lstrip s) = lstrip s.
Proof.
  induction s as [|c s IH]; simpl; [done |].
  destruct (is_space c) eqn:Hc; [done |]. simpl. by rewrite Hc.
Qed.

Lemma rstrip_lstrip_fixed (r : string) :
  rstrip r = r -> rstrip (lstrip r) = lstrip r.
Proof.
  induction r as [|c r IH]; simpl; [done |].
  destruct (is_space c) eqn:Hc.
  - destruct (rstrip r) as [|c' r'] eqn:E; [done |].
    intros [= H]. apply IH. by rewrite H in E.
  - intros H. simpl. rewrite Hc. exact H.
Qed.

(** [strip] leaves nothing to trim. *)
Lemma strip_strip (s : string) : strip (strip s) = strip s.
Proof.
  unfold strip.
  rewrite (rstrip_lstrip_fixed (rstrip s) (rstrip_rstrip s)).
  apply lstrip_lstrip.
Qed.

(** ** The manifest: what holds of every row *)

Section manifest_invariant.
Import generate_csv_file.

Lemma process_segment_row (seg : segment) (row : manifest_row) :
  process_segment seg = Returned row ->
  file_name row = filename seg /\
  nth_error (split_on "_" (filename seg)) 1 = Some (dept row) /\
  audio_url row = CLOUDFRONT_URL +:+ filename seg /\
  py_float (duration seg) = Returned (audio_duration_in_seconds row) /\
  transcript row = strip (transcription seg).
Proof.
  unfold process_segment, index_list.
  destruct (nth_error _ 1) as [d|]; simpl; [|done].
  destruct (py_float (duration seg)) as [x|]; simpl; [|done].
  by intros [= <-].
Qed.

Lemma py_float_positive (s : string) (x : spec_float) :
  py_float s = Returned x -> positive_sign x.
Proof.
  unfold py_float. destruct (split_dot s) as [ip rest].
  destruct (ip +:+ _) as [|c ds]; [done |].
  destruct (digits_value _) as [[|n]|]; [| | done].
  - by intros [= <-].
  - intros [= <-]. apply b64_of_ratio_positive.
Qed.

Lemma collect_row_origin (fs : filesystem) (folders : list string) (row : manifest_row) :
  In row (collect fs [] folders) ->
  exists folder log_content seg,
    In folder folders /\
    In seg (extract_segments log_content) /\
    process_segment seg = Returned row.
Proof.
  rewrite collect_flat. simpl. rewrite in_flat_map.
  intros (folder & Hf & Hrow). exists folder.
  unfold contribution, folder_rows in Hrow.
  destruct (get_log_file fs folder) as [path|]; simpl in Hrow; [|done].
  destruct (read_log_file fs path) as [log_content|]; simpl in Hrow; [|done].
  destruct (process_segments (extract_segments log_content)) as [rows|] eqn:E; [|done].
  unfold process_segments in E.
  apply process_segments_from_returned in E as (rows' & -> & HF).
  simpl in Hrow. apply list_elem_of_In, list_elem_of_lookup in Hrow as [i Hi].
  destruct (Forall2_lookup_r _ _ _ _ _ HF Hi) as (seg & Hseg & Hp).
  exists log_content, seg. repeat split; try done.
  apply list_elem_of_In, list_elem_of_lookup. by exists i.
Qed.

(** X3: every row of the manifest, whatever the folders hold, has a file
    name that is not empty and has no line feed, the token at index 1 of
    that name as department, the base URL followed by that name as URL, a
    duration that is zero, a positive number or the positive infinity, and
    a transcript without line feed that trimming leaves as it is; both
    writers take their rows from this list. *)
Theorem manifest_rows_are_consistent (fs : filesystem) (folders : list string)
    (row : manifest_row) :
  In row (collect fs [] folders) ->
  file_name row <> "" /\
  string_forallb is_not_newline (file_name row) = true /\
  nth_error (split_on "_" (file_name row)) 1 = Some (dept row) /\
  audio_url row = CLOUDFRONT_URL +:+ file_name row /\
  positive_sign (audio_duration_in_seconds row) /\
  string_forallb is_not_newline (transcript row) = true /\
  strip (transcript row) = transcript row.
Proof.
  intros Hin.
  apply collect_row_origin in Hin as (folder & log_content & seg & _ & Hseg & Hp).
  apply extracted_segments_wf in Hseg
    as (_ & _ & _ & _ & _ & _ & _ & _ & Hf1 & Hf2 & _ & Ht).
  apply process_segment_row in Hp as (-> & Hd & Hu & Hx & ->).
  repeat split; try done.
  - by apply py_float_positive in Hx.
  - by apply strip_forallb.
  - apply strip_strip.
Qed.

End manifest_invariant.

Lemma manifest_rows_are_consistent_witness :
  strip "hello" = "hello" /\
  nth_error (split_on "_" "STT_TT_D001_0001_0_to_3000.wav") 1 = Some "TT".
Proof.
  destruct (manifest_rows_are_consistent sample_fs ["data/a"; "data/b"]
              {| file_name := "STT_TT_D001_0001_0_to_3000.wav";
                 dept := "TT";
                 audio_url := generate_csv_file.CLOUDFRONT_URL +:+
                              "STT_TT_D001_0001_0_to_3000.wav";
                 audio_duration_in_seconds := float_3_0;
                 transcript := "hello" |})
    as (_ & _ & Hd & _ & _ & _ & Ht).
  - vm_compute. by left.
  - split; [exact Ht | exact Hd].
Defined.

(** ** Locating the log of a folder *)

Section locating.
Import generate_csv_file.

Lemma filter_first (f : string -> bool) (names : list string) :
  match List.filter f names with
  | [] => Forall (fun n => f n = false) names
  | name :: _ =>
      exists before after,
        names = before ++ name :: after /\
        Forall (fun n => f n = false) before /\ f name = true
  end.
Proof.
  induction names as [|n names IH]; simpl; [done |].
  destruct (f n) eqn:E.
  - by exists [], names.
  - destruct (List.filter f names) as [|name rest].
    + by constructor.
    + destruct IH as (before & after & -> & HF & Hn).
      exists (n :: before), after. repeat split; try done. by constructor.
Qed.

Lemma filter_first_unique (f : string -> bool) (before after : list string)
    (name : string) :
  Forall (fun n => f n = false) before -> f name = true ->
  exists rest, List.filter f (before ++ name :: after) = name :: rest.
Proof.
  intros HF Hn. induction HF as [|n before Hfalse _ IH]; simpl.
  - rewrite Hn. by eexists.
  - by rewrite Hfalse.
Qed.

(** X4: [get_log_file] returns the path of the first name, in the order of
    the listing, that starts with [segments_log], joined to the folder;
    names listed after it play no part.  It raises exactly when the folder
    cannot be listed, then with what [os.listdir] raised for it, or when
    the folder lists no such name, then with [FileNotFoundError]. *)
Theorem get_log_file_takes_first_log (fs : filesystem) (folder : string) :
  (forall path,
     get_log_file fs folder = Returned path <->
     exists before name after,
       listing fs !! folder = Some (before ++ name :: after) /\
       Forall (fun n => startswith n "segments_log" = false) before /\
       startswith name "segments_log" = true /\
       path = path_join folder name) /\
  (forall e,
     get_log_file fs folder = Raised e <->
     listdir fs folder = Raised e \/
     exists names,
       listdir fs folder = Returned names /\
       Forall (fun n => startswith n "segments_log" = false) names /\
       e = FileNotFoundError) /\
  (forall e,
     listdir fs folder = Raised e <->
     listing fs !! folder = None /\ e = listdir_error fs folder).
Proof.
  unfold get_log_file, listdir.
  destruct (listing fs !! folder) as [names|]; simpl.
  - pose proof (filter_first (fun f => startswith f "segments_log") names) as Hfirst.
    destruct (List.filter _ names) as [|name rest] eqn:E.
    + split.
      * intros path. split; [done |].
        intros (before & name & after & [= ->] & HF & Hn & _).
        destruct (filter_first_unique _ before after name HF Hn) as [rest Hr].
        by rewrite Hr in E.
      * split; [| by intros e; split; [| intros [? _]]].
        intros e. split.
        -- intros [= <-]. right. by exists names.
        -- by intros [?|(? & _ & _ & ->)].
    + destruct Hfirst as (before & after & -> & HF & Hn). split.
      * intros path. split.
        -- intros [= <-]. by exists before, name, after.
        -- intros (before' & name' & after' & [= Heq] & HF' & Hn' & ->).
           destruct (filter_first_unique _ before' after' name' HF' Hn') as [rest' Hr].
           rewrite <- Heq, E in Hr. by injection Hr as -> _.
      * split; [| by intros e; split; [| intros [? _]]].
        intros e. split; [done |].
        intros [?|(names & [= <-] & HF' & _)]; [done |].
        apply Forall_app in HF' as [_ HF']. inversion HF'. congruence.
  - split.
    + intros path. split; [done |]. by intros (? & ? & ? & ? & _).
    + split.
      * intros e. split.
        -- intros [= <-]. by left.
        -- by intros [[= <-]|(? & ? & _)].
      * intros e. split; [by intros [= <-] | by intros [_ ->]].
Qed.

End locating.

Lemma get_log_file_takes_first_log_witness :
  generate_csv_file.get_log_file sample_fs "data/a" =
    Returned "data/a/segments_log.txt" /\
  generate_csv_file.get_log_file sample_fs "data/a/notes.txt" =
    Raised NotADirectoryError.
Proof.
  split.
  - apply (proj1 (get_log_file_takes_first_log sample_fs "data/a")).
    exists ["notes.txt"], "segments_log.txt", []. repeat split.
    by repeat constructor.
  - apply (proj1 (proj2 (get_log_file_takes_first_log sample_fs "data/a/notes.txt"))).
    left. reflexivity.
Defined.

(** ** Which blocks a folder survives *)

Section block_success.
Import generate_csv_file.

Lemma split_on_length (sep : ascii) (s : string) :
  length (split_on sep s) = S (count_char sep s).
Proof.
  induction s as [|c s IH]; simpl; [done |].
  destruct (Ascii.eqb c sep); simpl; [by rewrite IH |].
  destruct (split_on sep s); simpl in *; lia.
Qed.

Lemma digits_parse (s : string) :
  string_forallb is_digit s = true -> exists n, digits_value s = Some n.
Proof.
  intros H. unfold digits_value. rewrite H.
  assert (Hu : exists d, NilEmpty.uint_of_string s = Some d).
  { induction s as [|c s IH]; simpl; [by eexists |].
    simpl in H. apply andb_prop in H as [Hc Hs].
    destruct (IH Hs) as [d ->].
    destruct c as [[] [] [] [] [] [] [] []]; try discriminate Hc;
      simpl; by eexists. }
  destruct Hu as [d ->]. by eexists.
Qed.

Lemma split_dot_spec (s : string) :
  string_forallb is_digit_or_dot s = true ->
  let '(ip, rest) := split_dot s in
  string_forallb is_digit ip = true /\
  match rest with
  | None => count_char "." s = O /\ s = ip
  | Some fp =>
      count_char "." s = S (count_char "." fp) /\
      s = ip +:+ String "." fp /\
      string_forallb is_digit_or_dot fp = true
  end.
Proof.
  induction s as [|c s IH]; simpl; [done |].
  intros H. apply andb_prop in H as [Hc Hs].
  destruct (Ascii.eqb_spec c ".") as [->|Hne].
  - simpl. repeat split; done.
  - specialize (IH Hs). destruct (split_dot s) as [ip rest].
    destruct IH as [Hip Hrest].
    assert (Hd : is_digit c = true).
    { unfold is_digit_or_dot in Hc. apply orb_prop in Hc as [|Hc]; [done |].
      by apply Ascii.eqb_eq in Hc. }
    split; [simpl; by rewrite Hd |].
    destruct rest as [fp|].
    + destruct Hrest as (-> & -> & Hfp). repeat split; done.
    + destruct Hrest as [-> <-]. done.
Qed.

Lemma no_dot_digits (s : string) :
  string_forallb is_digit_or_dot s = true -> count_char "." s = O ->
  string_forallb is_digit s = true.
Proof.
  induction s as [|c s IH]; simpl; [done |].
  intros H Hn. apply andb_prop in H as [Hc Hs].
  destruct (Ascii.eqb_spec c ".") as [->|Hne]; [done |].
  unfold is_digit_or_dot in Hc. apply orb_prop in Hc as [Hc|Hc].
  - rewrite Hc. by apply IH.
  - by apply Ascii.eqb_eq in Hc.
Qed.

Lemma digits_no_dot (s : string) :
  string_forallb is_digit s = true -> count_char "." s = O.
Proof.
  induction s as [|c s IH]; simpl; [done |].
  intros H. apply andb_prop in H as [Hc Hs].
  destruct (Ascii.eqb_spec c ".") as [->|Hne]; [done | by apply IH].
Qed.

Lemma count_char_append (c : ascii) (a b : string) :
  count_char c (a +:+ b) = (count_char c a + count_char c b)%nat.
Proof. induction a as [|x a IH]; simpl; [done | rewrite IH; lia]. Qed.

Lemma count_char_le_length (c : ascii) (s : string) :
  (count_char c s <= String.length s)%nat.
Proof.
  induction s as [|x s IH]; simpl; [done |]. destruct (Ascii.eqb x c); lia.
Qed.

(** [float] accepts a text of digits and full stops exactly when it has at
    most one full stop and at least one digit. *)
Lemma py_float_returns_iff (s : string) :
  string_forallb is_digit_or_dot s = true ->
  (exists x, py_float s = Returned x) <->
  (count_char "." s <= 1)%nat /\ (count_char "." s < String.length s)%nat.
Proof.
  intros Hcls. pose proof (split_dot_spec s Hcls) as Hspec.
  unfold py_float. destruct (split_dot s) as [ip rest].
  destruct Hspec as [Hip Hrest].
  destruct rest as [fp|].
  - destruct Hrest as (Hcount & -> & Hfp).
    rewrite length_append. simpl String.length.
    pose proof (digits_no_dot ip Hip) as Hipdots.
    pose proof (count_char_le_length "." fp) as Hle.
    destruct (decide (count_char "." fp = O)) as [Hz|Hnz].
    + pose proof (no_dot_digits fp Hfp Hz) as Hfpd.
      assert (Hall : string_forallb is_digit (ip +:+ fp) = true)
        by (by rewrite string_forallb_append, Hip, Hfpd).
      destruct (digits_parse _ Hall) as [n Hn].
      destruct (ip +:+ fp) as [|c ds] eqn:E.
      * split; [by intros [x ?] |]. intros [_ Hlt].
        apply (f_equal String.length) in E. rewrite length_append in E.
        simpl in E. lia.
      * rewrite Hn. split.
        -- intros _. apply (f_equal String.length) in E.
           rewrite length_append in E. simpl in E. lia.
        -- intros _. destruct n; by eexists.
    + assert (Hbad : digits_value (ip +:+ fp) = None).
      { unfold digits_value. rewrite string_forallb_append.
        destruct (string_forallb is_digit fp) eqn:Ef.
        - apply digits_no_dot in Ef. done.
        - by rewrite andb_false_r. }
      split; [| lia].
      intros [x Hx]. destruct (ip +:+ fp) as [|c ds]; [done |].
      by rewrite Hbad in Hx.
  - destruct Hrest as [Hz <-]. rewrite Hz, append_nil_r.
    destruct (digits_parse _ Hip) as [n Hn].
    destruct s as [|c ds].
    + split; [by intros [x ?] | simpl; lia].
    + rewrite Hn. split; [simpl; lia |]. intros _. destruct n; by eexists.
Qed.

(** X5: for a record the pattern extracted, the body of the loop of
    [process_segments] returns a row exactly when the file name holds an
    underscore and the duration holds at most one full stop and at least
    one digit; without an underscore it raises [IndexError], and with an
    underscore and a duration that [float] rejects, [ValueError]. *)
Theorem process_segment_returns_iff (seg : segment) :
  well_formed_segment seg ->
  let underscores := count_char "_" (filename seg) in
  let stops := count_char "." (duration seg) in
  ((exists row, process_segment seg = Returned row) <->
   (1 <= underscores)%nat /\ (stops <= 1)%nat /\
   (stops < String.length (duration seg))%nat) /\
  (underscores = O -> process_segment seg = Raised IndexError) /\
  ((1 <= underscores)%nat ->
   ~ ((stops <= 1)%nat /\ (stops < String.length (duration seg))%nat) ->
   process_segment seg = Raised ValueError).
Proof.
  intros (_ & _ & _ & _ & _ & _ & _ & Hd & _) underscores stops.
  pose proof (py_float_returns_iff (duration seg) Hd) as Hfloat.
  pose proof (split_on_length "_" (filename seg)) as Hlen.
  fold underscores in Hlen. fold stops in Hfloat.
  unfold process_segment, index_list.
  destruct (split_on "_" (filename seg)) as [|t0 [|t1 ts]]; simpl in *.
  - lia.
  - assert (underscores = O) as -> by lia.
    split; [| split; [done | lia]].
    split; [by intros [row ?] | lia].
  - assert (Hu : (1 <= underscores)%nat) by lia.
    destruct (py_float (duration seg)) as [x|e] eqn:E; simpl.
    + assert (Hok : (stops <= 1)%nat /\ (stops < String.length (duration seg))%nat)
        by (apply Hfloat; by exists x).
      split; [| split; [lia | tauto]].
      split; [done | by eexists].
    + apply py_float_raises_value_error in E as ->.
      split; [| split; [lia | done]].
      split; [by intros [row ?] |].
      intros (_ & H1 & H2). destruct (proj2 Hfloat (conj H1 H2)) as [x Hx].
      discriminate Hx.
Qed.

End block_success.

Lemma process_segment_returns_iff_witness :
  generate_csv_file.process_segment
    {| generate_csv_file.segment_id := "0002";
       generate_csv_file.start_time := "3.00";
       generate_csv_file.end_time := "4.00";
       generate_csv_file.duration := "1.0.0";
       generate_csv_file.filename := "STT_TT_D001_0002_3000_to_4000.wav";
       generate_csv_file.transcription := "lost" |} = Raised ValueError.
Proof.
  apply (process_segment_returns_iff
           {| generate_csv_file.segment_id := "0002";
              generate_csv_file.start_time := "3.00";
              generate_csv_file.end_time := "4.00";
              generate_csv_file.duration := "1.0.0";
              generate_csv_file.filename := "STT_TT_D001_0002_3000_to_4000.wav";
              generate_csv_file.transcription := "lost" |}).
  - unfold well_formed_segment. simpl. repeat split; done.
  - simpl. lia.
  - simpl. lia.
Defined.

(** ** What a file name tells *)

Lemma class_then_separator (p : ascii -> bool) (u v x y : string) (c : ascii) :
  string_forallb p u = true -> string_forallb p v = true -> p c = false ->
  u +:+ String c x = v +:+ String c y -> u = v /\ x = y.
Proof.
  revert v. induction u as [|a u IH]; intros [|b v] Hu Hv Hc; simpl in *; intros E.
  - by injection E as ->.
  - injection E as -> _. apply andb_prop in Hv as [Hv _]. congruence.
  - injection E as -> _. apply andb_prop in Hu as [Hu _]. congruence.
  - injection E as -> E.
    apply andb_prop in Hu as [_ Hu]. apply andb_prop in Hv as [_ Hv].
    destruct (IH v Hu Hv Hc E) as [-> ->]. done.
Qed.

Lemma dec_inj (n m : N) : dec n = dec m -> n = m.
Proof.
  unfold dec. intros H. apply DecimalN.Unsigned.to_uint_inj.
  pose proof (NilEmpty.usu (N.to_uint n)) as Hn.
  rewrite H, NilEmpty.usu in Hn. by injection Hn.
Qed.

Lemma str_int_sign_or_digit (z : Z) :
  string_forallb is_sign_or_digit (str_int z) = true.
Proof.
  assert (H : string_forallb is_sign_or_digit (dec (Z.abs_N z)) = true).
  { apply (string_forallb_impl is_digit); [| apply dec_digits].
    intros c Hc. unfold is_sign_or_digit. by rewrite Hc. }
  unfold str_int. destruct (z <? 0); simpl; by rewrite ?H.
Qed.

Lemma str_int_inj (a b : Z) : str_int a = str_int b -> a = b.
Proof.
  unfold str_int.
  pose proof (dec_digits (Z.abs_N a)) as Ha.
  pose proof (dec_digits (Z.abs_N b)) as Hb.
  destruct (Z.ltb_spec a 0), (Z.ltb_spec b 0); intros E.
  - injection E as E. apply dec_inj in E. lia.
  - rewrite <- E in Hb. simpl in Hb. done.
  - rewrite E in Ha. simpl in Ha. done.
  - apply dec_inj in E. lia.
Qed.

(** X6: the name of a segment file tells the position of its row and the
    start and the end it was cut at: two names with the same prefix are
    equal only for the same position, start and end. *)
Theorem segment_name_inj (prefix : string) (i j : nat) (s1 e1 s2 e2 : Z) :
  segment_name prefix i s1 e1 = segment_name prefix j s2 e2 <->
  i = j /\ s1 = s2 /\ e1 = e2.
Proof.
  split; [| by intros (-> & -> & ->)].
  intros H. assert (Hi := segment_name_index prefix i j s1 e1 s2 e2 H). subst j.
  split; [done |].
  unfold segment_name, format_time in H.
  apply append_cancel_l in H. simpl in H. injection H as H.
  apply append_cancel_l in H. simpl in H. injection H as H.
  rewrite !append_assoc in H. simpl in H.
  apply (class_then_separator is_sign_or_digit) in H as [Hs H];
    [| apply str_int_sign_or_digit | apply str_int_sign_or_digit | done].
  apply str_int_inj in Hs. split; [done |].
  injection H as H.
  apply (class_then_separator is_sign_or_digit) in H as [He _];
    [| apply str_int_sign_or_digit | apply str_int_sign_or_digit | done].
  by apply str_int_inj.
Qed.

Lemma segment_name_inj_witness :
  segment_name "STT_TT_D002" 2 0 3000 = "STT_TT_D002_0003_0_to_3000.wav" /\
  (2 = 2)%nat /\ 0 = 0 /\ 3000 = 3000.
Proof.
  split; [reflexivity |].
  apply (proj1 (segment_name_inj "STT_TT_D002" 2 2 0 3000 0 3000)). reflexivity.
Defined.

(** ** Runs of the splitter as a whole *)

Section splitter_whole.

Variable audio : Type.
Variable slice : audio -> Z -> Z -> outcome audio.
Variable export : audio -> string -> outcome string.
Variable log_fault : nat -> option nat.

Local Abbreviation split_run := (split_with_prefix audio slice export log_fault).
Local Abbreviation files_from := (files_after audio slice export).
Local Abbreviation parts_from := (log_parts audio slice export log_fault).
Local Abbreviation bytes_for := (exported_to audio slice export).

Lemma split_with_prefix_cases (prefix : string) (inp : split_input audio)
    (st : out_dir) :
  split_run prefix inp st =
    match mkdir audio inp with
    | Raised e => (Raised e, st)
    | Returned _ =>
        if negb (audio_exists audio inp) then (Raised FileNotFoundError, st)
        else if negb (csv_exists audio inp) then (Raised FileNotFoundError, st)
        else match read_csv audio inp, from_mp3 audio inp with
             | Raised e, _ => (Raised e, st)
             | Returned _, Raised e => (Raised e, st)
             | Returned rows, Returned a =>
                 match header_write audio inp with
                 | Written =>
                     (Returned tt,
                      {| files := files_from prefix a 0 rows (files st);
                         log := log_header +:+ parts_from prefix a 0 rows |})
                 | Refused e => (Raised e, st)
                 | Broken e kept =>
                     (Raised e, {| files := files st; log := kept |})
                 end
             end
    end.
Proof.
  unfold split_with_prefix, bind, lift.
  destruct (mkdir audio inp) as [made|]; [| done].
  destruct (audio_exists audio inp); simpl; [|done].
  destruct (csv_exists audio inp); simpl; [|done].
  destruct (read_csv audio inp) as [rows|]; [|done].
  destruct (from_mp3 audio inp) as [a|]; [|done].
  unfold write_log.
  destruct (header_write audio inp) as [|e|e kept]; [| done | done].
  by rewrite process_rows_closed.
Qed.


Lemma files_after_exported (prefix : string) (a : audio) (rows : list timing_row) :
  forall (index : nat) (m : gmap string string) (key : string),
    files_from prefix a index rows m !! key =
      match bytes_for prefix a index rows key with
      | Some bytes => Some bytes
      | None => m !! key
      end.
Proof.
  induction rows as [|row rows IH]; intros index m key; simpl; [done |].
  rewrite IH.
  destruct (bytes_for prefix a (S index) rows key) as [b|]; [done |].
  destruct (row_output audio slice export prefix a index row)
    as [[[name bytes] times]|]; [|done].
  destruct (String.eqb_spec name key) as [->|Hne].
  - apply lookup_insert_eq.
  - by apply lookup_insert_ne.
Qed.

(** X8: running the splitter again on the same inputs, in the directory
    the first run left, changes nothing: a run that raised left the
    directory as it was, and one that returned writes the log anew from its
    header and exports each file again under its name. *)
Theorem split_audio_file_twice (inp : split_input audio) (prefix : string)
    (st : out_dir) :
  let run := stt_training_data_split_audio.split_audio_file slice export
               log_fault inp prefix in
  let run' := Stt_Audio_split_audio.split_audio_file slice export log_fault inp in
  run (snd (run st)) = run st /\
  run' (snd (run' st)) = run' st /\
  (fst (run st) = Returned tt ->
   exists more, log (snd (run st)) = log_header +:+ more).
Proof.
  assert (Htwice : forall p,
            split_run p inp (snd (split_run p inp st)) = split_run p inp st).
  { intros p. rewrite !split_with_prefix_cases.
    destruct (mkdir audio inp) as [[]|]; [| done].
    destruct (audio_exists audio inp); cbn [negb]; [| done].
    destruct (csv_exists audio inp); cbn [negb]; [| done].
    destruct (read_csv audio inp) as [rows|]; [| done].
    destruct (from_mp3 audio inp) as [a|]; [| done].
    destruct (header_write audio inp) as [|e|e kept]; [| done | done].
    cbn [snd files log]. do 2 f_equal. apply map_eq. intros key.
    rewrite !files_after_exported.
    by destruct (bytes_for p a 0 rows key). }
  intros run run'. unfold run, run', stt_training_data_split_audio.split_audio_file,
    Stt_Audio_split_audio.split_audio_file.
  split; [apply Htwice |]. split; [apply Htwice |].
  rewrite split_with_prefix_cases.
  destruct (mkdir audio inp) as [[]|]; [| intros H; discriminate H].
  destruct (audio_exists audio inp); cbn [negb fst];
    [| intros H; discriminate H].
  destruct (csv_exists audio inp); cbn [negb fst];
    [| intros H; discriminate H].
  destruct (read_csv audio inp) as [rows|]; [| intros H; discriminate H].
  destruct (from_mp3 audio inp) as [a|]; [| intros H; discriminate H].
  destruct (header_write audio inp) as [|e|e kept];
    [| intros H; discriminate H | intros H; discriminate H].
  intros _. cbn [snd log]. by eexists.
Qed.

(** X9: a run never removes a file of the output directory and changes
    only files named as a segment of its prefix; inside the loop the log
    only grows. *)
Theorem splitter_only_adds (inp : split_input audio) (prefix : string)
    (a : audio) (rows : list timing_row) (index : nat) (st : out_dir) :
  let after_run :=
    snd (stt_training_data_split_audio.split_audio_file slice export log_fault
           inp prefix st) in
  let after_rows :=
    snd (process_rows audio slice export log_fault prefix a index rows st) in
  (forall key, is_Some (files st !! key) -> is_Some (files after_run !! key)) /\
  (forall key, ~ named_from prefix 0 key ->
     files after_run !! key = files st !! key) /\
  (forall key, is_Some (files st !! key) -> is_Some (files after_rows !! key)) /\
  (exists more, log after_rows = log st +:+ more).
Proof.
  intros after_run after_rows.
  assert (Hkeep : forall i rs m key,
            is_Some (m !! key) -> is_Some (files_from prefix a i rs m !! key)).
  { intros i rs m key H. rewrite files_after_exported.
    by destruct (bytes_for prefix a i rs key). }
  unfold after_run, after_rows, stt_training_data_split_audio.split_audio_file.
  rewrite split_with_prefix_cases, process_rows_closed.
  split; [| split; [| split]].
  - intros key H.
    destruct (mkdir audio inp) as [[]|], (audio_exists audio inp),
      (csv_exists audio inp), (read_csv audio inp) as [rs|],
      (from_mp3 audio inp) as [a'|], (header_write audio inp) as [|?|? kept];
      simpl; try done.
    rewrite files_after_exported.
    by destruct (exported_to audio slice export prefix a' 0 rs key).
  - intros key H.
    destruct (mkdir audio inp) as [[]|], (audio_exists audio inp),
      (csv_exists audio inp), (read_csv audio inp) as [rs|],
      (from_mp3 audio inp) as [a'|], (header_write audio inp) as [|?|? kept];
      simpl; try done.
    by apply files_after_other.
  - intros key H. simpl. by apply Hkeep.
  - simpl. by eexists.
Qed.

End splitter_whole.


Lemma split_audio_file_twice_witness :
  exists more,
    log (snd (stt_training_data_split_audio.split_audio_file sample_slice
                sample_export sample_log_fault (sample_input sample_valid_rows)
                "STT_TT_D001" used_dir)) = log_header +:+ more.
Proof.
  apply (split_audio_file_twice string sample_slice sample_export
           sample_log_fault (sample_input sample_valid_rows) "STT_TT_D001" used_dir).
  reflexivity.
Defined.

Lemma splitter_only_adds_witness :
  files (snd (stt_training_data_split_audio.split_audio_file sample_slice
                sample_export sample_log_fault (sample_input sample_valid_rows)
                "STT_TT_D001" used_dir)) !! "notes.txt" = Some "n".
Proof.
  rewrite (proj1 (proj2 (splitter_only_adds string sample_slice sample_export
             sample_log_fault (sample_input sample_valid_rows) "STT_TT_D001"
             sample_wave [] 0 used_dir)) "notes.txt").
  - reflexivity.
  - intros (j & s & e & _ & H). vm_compute in H. discriminate H.
Defined.

(** ** The download from the drive folder *)

Lemma download_each_app (output_dir : string) (before after : list drive_file) :
  forall local : gmap string string,
    forallb goes_through before = true ->
    fst (download_each output_dir before local) = Returned tt /\
    download_each output_dir (before ++ after) local =
      download_each output_dir after (snd (download_each output_dir before local)).
Proof.
  induction before as [|file before IH]; intros local H; [done |].
  cbn [forallb] in H. apply andb_prop in H as [Hfile Hrest].
  unfold goes_through in Hfile. cbn [download_each app].
  destruct (is_audio_or_csv (title file)); [| by apply IH].
  destruct (GetContentFile file) as [bytes|e partial]; [by apply IH | done].
Qed.

Lemma download_each_first_failure (output_dir : string) (file_list : list drive_file) :
  forall local : gmap string string,
    forallb goes_through file_list = false ->
    exists before file after,
      file_list = before ++ file :: after /\
      forallb goes_through before = true /\ goes_through file = false.
Proof.
  intros _. induction file_list as [|file rest IH]; [done |].
  cbn [forallb]. destruct (goes_through file) eqn:E.
  - intros H. destruct (IH H) as (before & f & after & -> & Hb & Hf).
    exists (file :: before), f, after. cbn [forallb]. by rewrite E.
  - intros _. by exists [], file, rest.
Qed.

Lemma download_each_lookup (output_dir : string) (file_list : list drive_file)
    (path : string) :
  forall local : gmap string string,
    (is_Some (local !! path) ->
     is_Some (snd (download_each output_dir file_list local) !! path)) /\
    (~ download_target output_dir file_list path ->
     snd (download_each output_dir file_list local) !! path = local !! path).
Proof.
  induction file_list as [|file rest IH]; intros local; [done |].
  cbn [download_each].
  assert (Hrest : ~ download_target output_dir (file :: rest) path ->
                  ~ download_target output_dir rest path).
  { intros H (f & Hin & Hw & Hp). apply H. exists f. by repeat split; [right | |]. }
  destruct (is_audio_or_csv (title file)) eqn:Hw.
  - assert (Hne : ~ download_target output_dir (file :: rest) path ->
                  path_join output_dir (title file) <> path).
    { intros H E. apply H. exists file. by repeat split; [left | |]. }
    destruct (GetContentFile file) as [bytes|e partial].
    + destruct (IH (<[path_join output_dir (title file) := bytes]> local))
        as [IH1 IH2].
      split.
      * intros H. apply IH1.
        destruct (decide (path_join output_dir (title file) = path)) as [<-|Hd].
        -- rewrite lookup_insert_eq. by eexists.
        -- by rewrite lookup_insert_ne.
      * intros H. rewrite (IH2 (Hrest H)). by apply lookup_insert_ne, Hne.
    + cbn [snd]. destruct partial as [bytes|]; cbn [leave]; [| done].
      split.
      * intros H.
        destruct (decide (path_join output_dir (title file) = path)) as [<-|Hd].
        -- rewrite lookup_insert_eq. by eexists.
        -- by rewrite lookup_insert_ne.
      * intros H. by apply lookup_insert_ne, Hne.
  - destruct (IH local) as [IH1 IH2]. split; [done |].
    intros H. by apply IH2, Hrest.
Qed.

(** X10: the download returns exactly when the listing is obtained, the
    output directory is there or can be made, and every [.mp3] or [.csv]
    file of the listing is fetched.  When the listing or [os.makedirs]
    raises, nothing is downloaded.  Otherwise the download stops at the
    first such file whose download raises: the exception leaves the
    function, the files before it are saved, and nothing after it is
    requested. *)
Theorem download_stops_at_first_failure (list_file : outcome (list drive_file))
    (makedirs : outcome unit) (output_dir : string) (local : gmap string string) :
  let result := download_files_from_folder list_file makedirs output_dir local in
  (fst result = Returned tt <->
   exists file_list,
     list_file = Returned file_list /\ makedirs = Returned tt /\
     forallb goes_through file_list = true) /\
  (forall e, list_file = Raised e -> result = (Raised e, local)) /\
  (forall file_list e,
     list_file = Returned file_list -> makedirs = Raised e ->
     result = (Raised e, local)) /\
  (forall before file after,
     list_file = Returned (before ++ file :: after) -> makedirs = Returned tt ->
     forallb goes_through before = true -> goes_through file = false ->
     exists e partial,
       GetContentFile file = Failed e partial /\
       fst (download_each output_dir before local) = Returned tt /\
       result =
         (Raised e,
          leave (path_join output_dir (title file)) partial
            (snd (download_each output_dir before local)))).
Proof.
  intros result. unfold result, download_files_from_folder.
  split; [| split; [| split]].
  - destruct list_file as [file_list|e]; cbn [fst];
      [| split; [done | by intros (fl & H & _)]].
    destruct makedirs as [[]|e]; cbn [fst];
      [| split; [done | by intros (fl & _ & H & _)]].
    split.
    + intros H. exists file_list. split; [done |]. split; [done |].
      destruct (forallb goes_through file_list) eqn:E; [done |].
      destruct (download_each_first_failure output_dir file_list local E)
        as (before & file & after & -> & Hb & Hf).
      destruct (download_each_app output_dir before (file :: after) local Hb)
        as [_ Happ].
      rewrite Happ in H. cbn [download_each] in H.
      unfold goes_through in Hf.
      destruct (is_audio_or_csv (title file)); [| done].
      by destruct (GetContentFile file).
    + intros (fl & [= <-] & _ & H).
      destruct (download_each_app output_dir file_list [] local H) as [Hr _]. done.
  - by intros e ->.
  - by intros file_list e -> ->.
  - intros before file after -> -> Hb Hf.
    destruct (download_each_app output_dir before (file :: after) local Hb)
      as [Hr Happ].
    rewrite Happ. cbn [download_each]. unfold goes_through in Hf.
    destruct (is_audio_or_csv (title file)); [| done].
    destruct (GetContentFile file) as [bytes|e partial]; [done |].
    by exists e, partial.
Qed.

(** X11: the download never removes a local file and writes only at the
    paths [os.path.join(output_dir, title)] of listed files whose title ends
    in [.mp3] or [.csv]; a fetched file that no later file of the listing
    overwrites is found at its path when the function returns.  A title
    that starts with a slash is saved under that title, outside
    [output_dir]. *)
Theorem download_writes_only_wanted_files (list_file : outcome (list drive_file))
    (makedirs : outcome unit) (output_dir : string) (local : gmap string string)
    (path : string) :
  let result := download_files_from_folder list_file makedirs output_dir local in
  (is_Some (local !! path) -> is_Some (snd result !! path)) /\
  ((forall file_list,
      list_file = Returned file_list -> ~ download_target output_dir file_list path) ->
   snd result !! path = local !! path) /\
  (forall before file after bytes,
     list_file = Returned (before ++ file :: after) ->
     fst result = Returned tt ->
     is_audio_or_csv (title file) = true ->
     GetContentFile file = Fetched bytes ->
     path = path_join output_dir (title file) ->
     ~ download_target output_dir after path ->
     snd result !! path = Some bytes /\
     (startswith (title file) "/" = true -> path = title file)).
Proof.
  intros result. unfold result, download_files_from_folder.
  split; [| split].
  - destruct list_file as [file_list|e]; [| done].
    destruct makedirs as [[]|e]; [| done].
    apply download_each_lookup.
  - destruct list_file as [file_list|e]; [| done].
    destruct makedirs as [[]|e]; [| done].
    intros H. apply download_each_lookup. by apply H.
  - intros before file after bytes -> Hr Hw Hf -> Hafter.
    destruct makedirs as [[]|e]; [| discriminate Hr].
    split; [| unfold path_join; by intros ->].
    assert (Hb : forallb goes_through before = true).
    { destruct (forallb goes_through before) eqn:E; [done |].
      destruct (download_each_first_failure output_dir before local E)
        as (b1 & f & b2 & -> & Hb1 & Hf1).
      destruct (download_each_app output_dir b1 (f :: b2 ++ file :: after) local Hb1)
        as [_ Happ].
      rewrite <- app_assoc in Hr. cbn [app] in Hr. rewrite Happ in Hr.
      cbn [download_each] in Hr. unfold goes_through in Hf1.
      destruct (is_audio_or_csv (title f)); [| done].
      by destruct (GetContentFile f). }
    destruct (download_each_app output_dir before (file :: after) local Hb)
      as [_ Happ].
    rewrite Happ. cbn [download_each]. rewrite Hw, Hf.
    rewrite (proj2 (download_each_lookup output_dir after _ _) Hafter).
    apply lookup_insert_eq.
Qed.

Lemma download_stops_at_first_failure_witness :
  download_files_from_folder (Returned sample_listing) (Returned tt)
    "downloaded_files" ∅ =
  (Raised OSError,
   {[ "downloaded_files/a.mp3" := "A"; "downloaded_files/a.csv" := "par" ]}).
Proof.
  destruct (proj2 (proj2 (proj2 (download_stops_at_first_failure
                                   (Returned sample_listing) (Returned tt)
                                   "downloaded_files" ∅)))
              (take 2 sample_listing)
              {| title := "a.csv"; GetContentFile := Failed OSError (Some "par") |}
              (drop 3 sample_listing) eq_refl eq_refl eq_refl eq_refl)
    as (e & partial & Hf & _ & ->).
  injection Hf as <- <-. apply (f_equal (pair _)).
  apply map_eq. intros key. vm_compute. reflexivity.
Defined.

Lemma download_writes_only_wanted_files_witness :
  snd (download_files_from_folder (Returned sample_listing) (Returned tt)
         "downloaded_files" {[ "downloaded_files/notes.txt" := "mine" ]})
    !! "downloaded_files/notes.txt" = Some "mine".
Proof.
  rewrite (proj1 (proj2 (download_writes_only_wanted_files (Returned sample_listing)
                           (Returned tt) "downloaded_files"
                           {[ "downloaded_files/notes.txt" := "mine" ]}
                           "downloaded_files/notes.txt"))).
  - reflexivity.
  - intros file_list [= <-] (file & Hin & Hw & Hp).
    cbn [In sample_listing] in Hin.
    destruct Hin as [<-|[<-|[<-|[<-|[]]]]]; vm_compute in Hw, Hp; discriminate.
Defined.

(** ** The batch over a folder of recordings *)

Lemma fmt_03d_digits (n : N) : string_forallb is_digit (fmt_03d n) = true.
Proof.
  unfold fmt_03d. by rewrite string_forallb_append, zeros_digits, dec_digits.
Qed.

Lemma fmt_03d_inj (n m : N) : fmt_03d n = fmt_03d m -> n = m.
Proof.
  assert (Hv : forall k,
            option_map N.of_uint (NilEmpty.uint_of_string (fmt_03d k)) = Some k).
  { intros k. unfold fmt_03d, dec. rewrite uint_of_string_zeros, NilEmpty.usu.
    simpl. by rewrite DecimalN.Unsigned.of_to. }
  intros H. pose proof (Hv n) as Hn. rewrite H, Hv in Hn. congruence.
Qed.

Lemma folder_prefix_plain (idx : nat) :
  string_forallb is_plain (stt_training_data_split_audio.folder_prefix idx) = true.
Proof.
  unfold stt_training_data_split_audio.folder_prefix.
  rewrite string_forallb_append.
  by rewrite (string_forallb_impl is_digit is_plain _ digit_plain (fmt_03d_digits _)).
Qed.

(** X12: the names of the segment files tell the recordings apart: two
    names made under the prefixes of two positions of the batch are equal
    only for the same position, the same row and the same times.  The
    prefix of [Stt_Audio/split_audio.py] is that of the second position. *)
Theorem segment_names_differ_across_recordings (idx1 idx2 i j : nat)
    (s1 e1 s2 e2 : Z) :
  (segment_name (stt_training_data_split_audio.folder_prefix idx1) i s1 e1 =
   segment_name (stt_training_data_split_audio.folder_prefix idx2) j s2 e2 <->
   idx1 = idx2 /\ i = j /\ s1 = s2 /\ e1 = e2) /\
  stt_training_data_split_audio.folder_prefix 1 = "STT_TT_D002".
Proof.
  split; [| reflexivity].
  split; [| by intros (-> & -> & -> & ->)].
  intros H.
  assert (Hidx : idx1 = idx2).
  { unfold segment_name, stt_training_data_split_audio.folder_prefix in H.
    rewrite !(append_assoc "STT_TT_D") in H. apply append_cancel_l in H.
    change ("_" +:+ ?x) with (String "_" x) in H.
    apply digits_then_separator in H; try apply fmt_03d_digits; try done.
    apply fmt_03d_inj in H. lia. }
  subst idx2. split; [done |].
  generalize dependent (stt_training_data_split_audio.folder_prefix idx1).
  intros prefix H.
  assert (Hi := segment_name_index prefix i j s1 e1 s2 e2 H). subst j.
  split; [done |].
  unfold segment_name, format_time in H.
  apply append_cancel_l in H. simpl in H. injection H as H.
  apply append_cancel_l in H. simpl in H. injection H as H.
  rewrite !append_assoc in H. simpl in H.
  apply (class_then_separator is_sign_or_digit) in H as [Hs H];
    [| apply str_int_sign_or_digit | apply str_int_sign_or_digit | done].
  apply str_int_inj in Hs. split; [done |].
  injection H as H.
  apply (class_then_separator is_sign_or_digit) in H as [He _];
    [| apply str_int_sign_or_digit | apply str_int_sign_or_digit | done].
  by apply str_int_inj.
Qed.

Lemma segment_names_differ_across_recordings_witness :
  segment_name (stt_training_data_split_audio.folder_prefix 0) 2 0 3000 =
    "STT_TT_D001_0003_0_to_3000.wav" /\
  (0 = 0 /\ 2 = 2)%nat /\ 0 = 0 /\ 3000 = 3000.
Proof.
  split; [reflexivity |].
  destruct (proj1 (proj1 (segment_names_differ_across_recordings 0 0 2 2 0 3000 0 3000))
              eq_refl) as (H1 & H2 & H3 & H4).
  repeat split; assumption.
Defined.

Section batch_run.

Variable audio : Type.
Variable slice : audio -> Z -> Z -> outcome audio.
Variable export : audio -> string -> outcome string.
Variable log_fault : nat -> option nat.

Local Abbreviation one := (split_one audio slice export log_fault).
Local Abbreviation batch_from := (split_files_from audio slice export log_fault).
Local Abbreviation stem_of := (stem audio).

Lemma split_one_other (idx : nat) (r : recording audio)
    (dirs : gmap string out_dir) (key : string) :
  key <> stem_of r -> one idx r dirs !! key = dirs !! key.
Proof.
  intros H. unfold split_one.
  destruct (csv_exists audio (found audio r)); cbn [negb]; [| done].
  destruct (mkdir audio (found audio r)); [| done].
  by apply lookup_insert_ne.
Qed.

Lemma split_files_from_other (rs : list (recording audio)) (key : string) :
  forall (idx : nat) (dirs : gmap string out_dir),
    ~ In key (map stem_of rs) -> batch_from idx rs dirs !! key = dirs !! key.
Proof.
  induction rs as [|r rs IH]; intros idx dirs H; [done |].
  cbn [split_files_from]. rewrite IH.
  - apply split_one_other. intros E. apply H. by left.
  - intros Hin. apply H. by right.
Qed.

Lemma split_files_from_at (rs : list (recording audio)) :
  forall (idx : nat) (dirs : gmap string out_dir) (k : nat) (r : recording audio),
    List.NoDup (map stem_of rs) -> rs !! k = Some r ->
    batch_from idx rs dirs !! stem_of r = one (idx + k) r dirs !! stem_of r.
Proof.
  induction rs as [|r0 rs IH]; intros idx dirs k r Hnd Hk; [done |].
  cbn [map] in Hnd. apply List.NoDup_cons_iff in Hnd as [Hnotin Hnd].
  cbn [split_files_from]. destruct k as [|k]; simpl in Hk.
  - injection Hk as <-. rewrite Nat.add_0_r.
    by apply split_files_from_other.
  - rewrite (IH (S idx) _ k r Hnd Hk), Nat.add_succ_r. simpl.
    assert (Hne : stem_of r <> stem_of r0).
    { intros E. apply Hnotin. rewrite <- E. apply in_map.
      apply list_elem_of_In. by eapply list_elem_of_lookup_2. }
    assert (Hd := split_one_other idx r0 dirs _ Hne).
    generalize dependent (one idx r0 dirs). intros dirs0 Hd.
    unfold split_one.
    destruct (csv_exists audio (found audio r)); cbn [negb]; [| done].
    destruct (mkdir audio (found audio r)); [| done].
    by rewrite !lookup_insert_eq, Hd.
Qed.

(** X13: in a batch over recordings with distinct stems, the directory of
    each recording is what a run of [split_audio_file] alone makes of it,
    under the prefix of the recording's position in the listing, whatever
    the runs for the other recordings do or raise.  A recording without a
    CSV file is skipped and still takes up its number, and a run whose
    [mkdir] raises makes no directory; the directories of other stems are
    left as they were. *)
Theorem batch_runs_are_independent (audio_files : list (recording audio))
    (dirs : gmap string out_dir) :
  let dirs' := split_audio_files_in_folder audio slice export log_fault
                 audio_files dirs in
  (forall (k : nat) (r : recording audio),
     List.NoDup (map stem_of audio_files) -> audio_files !! k = Some r ->
     dirs' !! stem_of r =
       if csv_exists audio (found audio r) then
         match mkdir audio (found audio r) with
         | Returned _ =>
             Some (snd (stt_training_data_split_audio.split_audio_file slice export
                          log_fault (found audio r)
                          (stt_training_data_split_audio.folder_prefix k)
                          (default new_dir (dirs !! stem_of r))))
         | Raised _ => dirs !! stem_of r
         end
       else dirs !! stem_of r) /\
  (forall key, ~ In key (map stem_of audio_files) -> dirs' !! key = dirs !! key).
Proof.
  intros dirs'. unfold dirs', split_audio_files_in_folder. split.
  - intros k r Hnd Hk. rewrite (split_files_from_at audio_files 0 dirs k r Hnd Hk).
    simpl. unfold split_one.
    destruct (csv_exists audio (found audio r)); cbn [negb]; [| done].
    destruct (mkdir audio (found audio r)); [| done].
    by rewrite lookup_insert_eq.
  - intros key H. by apply split_files_from_other.
Qed.

End batch_run.

Lemma batch_runs_are_independent_witness :
  split_audio_files_in_folder string sample_slice sample_export sample_log_fault
    sample_recordings ∅ !! "b" =
  Some (snd (stt_training_data_split_audio.split_audio_file sample_slice
               sample_export sample_log_fault (sample_input sample_valid_rows)
               "STT_TT_D002" new_dir)).
Proof.
  assert (Hnd : List.NoDup (map (stem string) sample_recordings)).
  { repeat constructor; simpl; intuition discriminate. }
  pose proof (proj1 (batch_runs_are_independent string sample_slice sample_export
                       sample_log_fault sample_recordings ∅) 1%nat
                {| stem := "b"; found := sample_input sample_valid_rows |}
                Hnd eq_refl) as H.
  cbn [stem found] in H. rewrite lookup_empty in H.
  change (csv_exists string (sample_input sample_valid_rows)) with true in H.
  change (mkdir string (sample_input sample_valid_rows)) with (Returned tt) in H.
  exact H.
Defined.

(** ** More on the sanitizer *)

Lemma remove_class_id (cls : ascii -> bool) (s : string) :
  string_forallb (fun c => negb (cls c)) s = true -> remove_class cls s = s.
Proof.
  induction s as [|c s IH]; simpl; [done |].
  intros H. apply andb_prop in H as [Hc Hs].
  destruct (cls c); [done |]. by rewrite IH.
Qed.

Lemma take_chars_length (n : nat) (s : string) :
  String.length (take_chars n s) = Nat.min n (String.length s).
Proof.
  revert s. induction n as [|n IH]; intros [|c s]; simpl; try done.
  by rewrite IH.
Qed.

Lemma take_chars_id (n : nat) (s : string) :
  (String.length s <= n)%nat -> take_chars n s = s.
Proof.
  revert s. induction n as [|n IH]; intros [|c s]; simpl; try done; try lia.
  intros H. rewrite IH; [done | lia].
Qed.

Lemma take_chars_prefix (n : nat) (s : string) :
  exists rest, s = take_chars n s +:+ rest.
Proof.
  revert s. induction n as [|n IH]; intros [|c s]; simpl; try by eexists.
  destruct (IH s) as [rest H]. exists rest. by rewrite <- H.
Qed.

(** X14: [clean_filename] (the same in both splitter files) returns a
    prefix of the text without its forbidden characters.  A text without
    forbidden characters and not longer than [max_length] is returned as it
    is, so for [max_length >= 0] cleaning a cleaned name changes nothing.
    For a negative [max_length] the result is the cleaned text without its
    last [-max_length] characters. *)
Theorem clean_filename_keeps_clean_names (text : string) (max_length : Z) :
  let clean := stt_training_data_split_audio.clean_filename in
  Stt_Audio_split_audio.clean_filename text max_length = clean text max_length /\
  (exists rest, remove_class is_forbidden text = clean text max_length +:+ rest) /\
  (string_forallb (fun c => negb (is_forbidden c)) text = true ->
   Z.of_nat (String.length text) <= max_length ->
   clean text max_length = text) /\
  (0 <= max_length ->
   clean (clean text max_length) max_length = clean text max_length) /\
  (max_length < 0 ->
   String.length (clean text max_length) =
     (String.length (remove_class is_forbidden text) - Z.abs_nat max_length)%nat).
Proof.
  intros clean.
  assert (Hid : forall t k,
            string_forallb (fun c => negb (is_forbidden c)) t = true ->
            Z.of_nat (String.length t) <= k -> clean t k = t).
  { intros t k Hc Hl.
    unfold clean, stt_training_data_split_audio.clean_filename, slice_to.
    rewrite (remove_class_id _ _ Hc).
    destruct (Z.ltb_spec k 0) as [?|_]; [lia |].
    apply take_chars_id. lia. }
  split; [reflexivity |]. split; [| split; [apply Hid | split]].
  - unfold clean, stt_training_data_split_audio.clean_filename, slice_to.
    destruct (max_length <? 0); apply take_chars_prefix.
  - intros Hk. apply Hid.
    + apply slice_to_forallb, remove_class_clean.
    + by apply slice_to_length.
  - intros Hk.
    unfold clean, stt_training_data_split_audio.clean_filename, slice_to.
    destruct (Z.ltb_spec max_length 0) as [_|?]; [| lia].
    rewrite take_chars_length. lia.
Qed.

Lemma clean_filename_keeps_clean_names_witness :
  stt_training_data_split_audio.clean_filename "a/b" 2 = "ab" /\
  stt_training_data_split_audio.clean_filename "ab" 2 = "ab".
Proof.
  split; [reflexivity |].
  apply (proj1 (proj2 (proj2 (clean_filename_keeps_clean_names "ab" 2))));
    [reflexivity | simpl; lia].
Defined.

(** ** From the splitter's log to the rows of the manifest *)

Lemma fixed2_stops (h : Z) :
  count_char "." (fixed2 false h) = 1%nat /\
  (1 < String.length (fixed2 false h))%nat.
Proof.
  unfold fixed2. rewrite count_char_append, length_append.
  rewrite (digits_no_dot _ (dec_digits _)).
  assert (H2 : string_forallb is_digit
                 (String (digit_char ((h / 10) mod 10))
                    (String (digit_char (h mod 10)) "")) = true).
  { cbn [string_forallb].
    rewrite !is_digit_digit_char; [done | |]; apply Z.mod_pos_bound; lia. }
  split.
  - change (count_char "." (String "." ?t)) with (S (count_char "." t)).
    by rewrite (digits_no_dot _ H2).
  - cbn [String.length]. lia.
Qed.

(** [float] reads back every time the splitter writes. *)
Lemma fmt_seconds_parses (ms : Z) (t : string) :
  0 <= ms -> fmt_seconds ms = Returned t -> exists x, py_float t = Returned x.
Proof.
  intros Hms Ht.
  destruct (fmt_seconds_class ms t Hms Ht) as [_ Hcls].
  apply (py_float_returns_iff t Hcls).
  assert (Hshape : exists h, t = fixed2 false h).
  { revert Ht. unfold fmt_seconds, true_div.
    destruct ms as [|p|p]; [| | lia].
    - intros H. change (Returned (fixed2 false 0) = Returned t) in H.
      injection H as <-. by exists 0.
    - pose proof (b64_of_ratio_positive p 1000) as Hp.
      destruct (b64_of_ratio false p 1000) as [sg|sg| |sg m e]; simpl in Hp;
        try done; subst sg; intros H.
      + change (Returned (fixed2 false 0) = Returned t) in H.
        injection H as <-. by exists 0.
      + change (Returned (fixed2 false (hundredths m e)) = Returned t) in H.
        injection H as <-. by exists (hundredths m e). }
  destruct Hshape as [h ->]. destruct (fixed2_stops h) as [H1 H2].
  rewrite H1. split; [lia | done].
Qed.

Lemma split_on_never_empty (sep : ascii) (s : string) : split_on sep s <> [].
Proof.
  destruct s as [|c s]; simpl; [done |].
  destruct (Ascii.eqb c sep); [done |]. by destruct (split_on sep s).
Qed.

(** The second token of a segment name of the batch is [TT]. *)
Lemma dept_of_segment_name (idx index : nat) (start stop : Z) :
  index_list
    (split_on "_"
       (segment_name (stt_training_data_split_audio.folder_prefix idx)
          index start stop)) 1 = Returned "TT".
Proof.
  unfold segment_name, stt_training_data_split_audio.folder_prefix.
  rewrite (append_assoc "STT_TT_D").
  generalize (fmt_03d (N.of_nat idx + 1) +:+
              "_" +:+ fmt_04d (N.of_nat index + 1) +:+ "_" +:+
              format_time start stop +:+ ".wav").
  intros rest.
  change ("STT_TT_D" +:+ rest) with
    (String "S" (String "T" (String "T" (String "_"
       (String "T" (String "T" (String "_" (String "D" rest)))))))).
  pose proof (split_on_never_empty "_" (String "D" rest)) as Hne.
  cbn [split_on].
  change (Ascii.eqb "S" "_") with false. change (Ascii.eqb "T" "_") with false.
  change (Ascii.eqb "_" "_") with true. cbv iota.
  cbn [split_on] in Hne.
  destruct (if Ascii.eqb "D" "_" then _ else _) as [|t ts]; [done |].
  reflexivity.
Qed.

Section pipeline.

Variable audio : Type.
Variable slice : audio -> Z -> Z -> outcome audio.
Variable export : audio -> string -> outcome string.
Variable log_fault : nat -> option nat.

Local Abbreviation extract := generate_csv_file.extract_segments.
Local Abbreviation valid_from := (rows_valid audio slice export log_fault).
Local Abbreviation parts_from := (log_parts audio slice export log_fault).
Local Abbreviation prefix_at := stt_training_data_split_audio.folder_prefix.

Lemma manifest_of_log_parts (idx : nat) (a : audio) (rows : list timing_row) :
  forall index : nat,
    valid_from (prefix_at idx) a index rows = true ->
    forallb printable_row rows = true ->
    exists table,
      Forall2 (fun seg m => generate_csv_file.process_segment seg = Returned m)
        (extract (parts_from (prefix_at idx) a index rows)) table /\
      length table = length rows /\
      forall (j : nat) (row : timing_row),
        rows !! j = Some row ->
        exists m, table !! j = Some m /\ manifest_row_of idx (index + j) row m.
Proof.
  induction rows as [|row rows IH]; intros index Hv Hp.
  - exists []. split; [constructor | split; [reflexivity | done]].
  - simpl in Hv, Hp.
    apply andb_prop in Hv as [Hrow Hrows]. apply andb_prop in Hp as [Hprow Hprows].
    destruct (IH (S index) Hrows Hprows) as (table & IHF & IHlen & IHrows).
    apply (row_valid_inv audio slice export log_fault) in Hrow
      as (name & bytes & times & Ho & _ & Hpart).
    apply row_output_inv in Ho
      as (start & stop & dur & segment & H1 & H2 & H3 & Htimes & _ & Hname & _).
    apply printable_row_inv in Hprow
      as (s & e & d & E1 & E2 & E3 & Hs & He & Hd & Htr1 & Htr2 & Htr3).
    rewrite H1 in E1. rewrite H2 in E2. rewrite H3 in E3.
    injection E1 as <-. injection E2 as <-. injection E3 as <-.
    apply time_text_inv in Htimes as (ta & tb & td & Fa & Fb & Fd & ->).
    destruct (fmt_seconds_parses dur td Hd Fd) as [x Hx].
    apply fmt_seconds_class in Fa as [Fa1 Fa2]; [| done].
    apply fmt_seconds_class in Fb as [Fb1 Fb2]; [| done].
    destruct (fmt_seconds_class dur td Hd Fd) as [Fd1 Fd2].
    assert (Hplain := segment_name_plain (prefix_at idx) index start stop
                        (folder_prefix_plain idx)).
    rewrite <- Hname in Hplain.
    assert (Hnl : string_forallb is_not_newline name = true).
    { by apply (string_forallb_impl is_plain is_not_newline _ plain_not_newline). }
    assert (Hne : name <> "").
    { rewrite Hname. apply segment_name_nonempty. }
    assert (Hex : extract (parts_from (prefix_at idx) a index (row :: rows)) =
              {| generate_csv_file.segment_id := fmt_04d (N.of_nat index + 1);
                 generate_csv_file.start_time := ta;
                 generate_csv_file.end_time := tb;
                 generate_csv_file.duration := td;
                 generate_csv_file.filename := name;
                 generate_csv_file.transcription := transcription row |}
              :: extract (parts_from (prefix_at idx) a (S index) rows)).
    { unfold generate_csv_file.extract_segments. cbn [log_parts].
      rewrite Hpart, (path_name_plain name Hplain).
      by rewrite findall_block. }
    rewrite Hex.
    exists ({| file_name := name; dept := "TT";
               audio_url := generate_csv_file.CLOUDFRONT_URL +:+ name;
               audio_duration_in_seconds := x;
               transcript := strip (transcription row) |} :: table).
    split; [| split].
    + constructor; [| done].
      unfold generate_csv_file.process_segment.
      cbn [generate_csv_file.filename generate_csv_file.duration
           generate_csv_file.transcription].
      rewrite Hname, dept_of_segment_name, <- Hname. cbn [obind].
      rewrite Hx. reflexivity.
    + simpl. by rewrite IHlen.
    + intros [|j] r Hr; simpl in Hr.
      * injection Hr as <-. eexists. split; [reflexivity |].
        rewrite Nat.add_0_r. exists start, stop, dur, td.
        cbn [file_name dept audio_url audio_duration_in_seconds transcript].
        repeat split; done.
      * destruct (IHrows j r Hr) as (m & Hm & Hrowm).
        exists m. split; [done |]. by rewrite Nat.add_succ_r.
Qed.

(** X15: the two programs fit together.  When the splitter has run over
    valid rows with times that are not negative and transcriptions that are
    not empty and hold no line feed and no carriage return, under the
    prefix of a position of the batch, and the log the Parser locates in a
    folder is the file that run wrote, the Parser's rows for the folder
    are one per timing row, in order: the file name the splitter gave the
    segment, [TT] as department, the URL of that name, the duration that
    [float] reads from the seconds the splitter wrote, and the trimmed
    transcription. *)
Theorem splitter_log_gives_manifest_rows (idx : nat) (inp : split_input audio)
    (rows : list timing_row) (a : audio) (st : out_dir)
    (fs : filesystem) (folder log_file_path : string) :
  mkdir audio inp = Returned tt ->
  audio_exists audio inp = true -> csv_exists audio inp = true ->
  read_csv audio inp = Returned rows -> from_mp3 audio inp = Returned a ->
  header_write audio inp = Written ->
  valid_from (prefix_at idx) a 0 rows = true ->
  forallb printable_row rows = true ->
  generate_csv_file.get_log_file fs folder = Returned log_file_path ->
  content fs !! log_file_path =
    Some (log (snd (stt_training_data_split_audio.split_audio_file slice
                      export log_fault inp (prefix_at idx) st))) ->
  exists table,
    generate_csv_file.folder_rows fs folder = Returned table /\
    length table = length rows /\
    forall (j : nat) (row : timing_row),
      rows !! j = Some row ->
      exists m, table !! j = Some m /\ manifest_row_of idx j row m.
Proof.
  intros Hk Ha Hc Hr Hm Hw Hv Hp Hget Hfile.
  destruct (manifest_of_log_parts idx a rows 0 Hv Hp) as (table & HF & Hlen & Hrows).
  exists table. split; [| split; [done | exact Hrows]].
  revert Hfile. unfold stt_training_data_split_audio.split_audio_file.
  rewrite (split_with_prefix_closed audio slice export log_fault
             (prefix_at idx) inp rows a st Hk Ha Hc Hr Hm Hw).
  cbn [snd log]. intros Hfile.
  unfold generate_csv_file.folder_rows. rewrite Hget. cbn [obind].
  unfold generate_csv_file.read_log_file. rewrite Hfile. cbn [obind].
  rewrite universal_newlines_id.
  - unfold generate_csv_file.extract_segments. rewrite findall_header.
    exact (process_segments_from_all _ [] table HF).
  - rewrite string_forallb_append.
    by rewrite (log_parts_not_cr audio slice export log_fault (prefix_at idx) a rows
                  (folder_prefix_plain idx) 0 Hv Hp).
Qed.

End pipeline.

Lemma splitter_log_gives_manifest_rows_witness :
  exists table,
    generate_csv_file.folder_rows sample_log_folder "out/b" = Returned table /\
    length table = length sample_valid_rows /\
    forall (j : nat) (row : timing_row),
      sample_valid_rows !! j = Some row ->
      exists m, table !! j = Some m /\ manifest_row_of 1 j row m.
Proof.
  apply (splitter_log_gives_manifest_rows string sample_slice sample_export
           sample_log_fault 1 (sample_input sample_valid_rows) sample_valid_rows
           sample_wave new_dir sample_log_folder "out/b" "out/b/segments_log.txt");
    vm_compute; reflexivity.
Defined.
